(** * WASD viewport controls: a shallow embedding of [__init__.py]

    The module installs a Qt event filter on Maya's main window.  While Alt
    is held, the keys W/A/S/D/Q/E are tracked in a set and a repeating timer
    moves the camera of the focused viewport along the sum of their local
    directions; a small panel enables the filter and tunes the step.

    Conventions of the embedding:
    - Python floats and the components of [om.MVector] / [om.MMatrix] are
      idealised as real numbers ([R]); rounding is not modelled.
    - Qt and Maya are external: their state is the record [Host], and every
      call the module makes into [maya.cmds] or on [mayaMainWindow] is a
      command of the monad [cmd], which also appends the call to a log.
      Host commands are taken to succeed, as the module itself does (it has
      no exception handler).
    - Python objects are records that the methods take and return. *)

From Stdlib Require Import Reals Lra ZArith.
From stdpp Require Import gmap strings list fin_sets.

(** ** Qt: key codes and events *)

Module Qt.
(** Values of the [Qt::Key] enumeration used by the module. *)
Definition Key_A : Z := 0x41.
Definition Key_D : Z := 0x44.
Definition Key_E : Z := 0x45.
Definition Key_F : Z := 0x46.
Definition Key_Q : Z := 0x51.
Definition Key_S : Z := 0x53.
Definition Key_W : Z := 0x57.
Definition Key_Alt : Z := 0x01000023.
End Qt.

Module QEvent.
(** [QEvent.type()]: the two kinds the filter looks at, and all others. *)
Inductive Type_ := KeyPress | KeyRelease | Other.

Record t := Build {
  type : Type_;
  key : Z;
  isAutoRepeat : bool;
}.
End QEvent.

(** [QTimer]: only the interval and the active flag matter here. *)
Module QTimer.
Record t := Build { interval : Z; isActive : bool }.
Definition start (tm : t) : t := {| interval := interval tm; isActive := true |}.
Definition stop (tm : t) : t := {| interval := interval tm; isActive := false |}.
Definition setInterval (ms : Z) (tm : t) : t :=
  {| interval := ms; isActive := isActive tm |}.
End QTimer.

(** ** [maya.api.OpenMaya]: vectors and matrices over the reals *)

Module om.
Record MVector := mk { x : R; y : R; z : R }.

(** [om.MVector()] *)
Definition zero : MVector := mk 0 0 0.

(** [om.MVector(seq)] from the three floats a query returns. *)
Definition of_triple (t : R * R * R) : MVector :=
  let '(a, b, c) := t in mk a b c.

Definition add (u v : MVector) : MVector :=
  mk (x u + x v) (y u + y v) (z u + z v).

Definition sub (u v : MVector) : MVector :=
  mk (x u - x v) (y u - y v) (z u - z v).

(** [v * s] for a float [s]. *)
Definition scale (v : MVector) (s : R) : MVector :=
  mk (x v * s) (y v * s) (z v * s).

Definition length (v : MVector) : R :=
  sqrt (x v * x v + y v * y v + z v * z v).

(** [v.normal()]: the unit vector along [v]; the zero vector is left as
    it is (in [R], [/ 0 = 0]). *)
Definition normal (v : MVector) : MVector := scale v (/ length v).

(** [om.MMatrix(seq)] built from 16 floats in row-major order. *)
Definition MMatrix := list R.

Definition entry (m : MMatrix) (i j : nat) : R := nth (4 * i + j) m 0%R.

Definition identity : MMatrix :=
  [1; 0; 0; 0;
   0; 1; 0; 0;
   0; 0; 1; 0;
   0; 0; 0; 1]%R.

(** [v * m]: a vector is a row [x y z] transformed by the upper 3x3
    block; the translation row does not act on vectors. *)
Definition mul_matrix (v : MVector) (m : MMatrix) : MVector :=
  mk (x v * entry m 0 0 + y v * entry m 1 0 + z v * entry m 2 0)
     (x v * entry m 0 1 + y v * entry m 1 1 + z v * entry m 2 1)
     (x v * entry m 0 2 + y v * entry m 1 2 + z v * entry m 2 2).
End om.

(** ** The host: Maya's scene, the main window, and the call log *)

Inductive Call :=
| getPanel_withFocus
| getPanel_typeOf (panel : string)
| modelEditor_camera (panel : string)
| xform_query_translation (cam : string)
| camera_worldCenterOfInterest (cam : string)
| getAttr (attr : string)
| xform_set_translation (cam : string) (pos : R * R * R)
| refresh
| LookAtSelection
| FrameSelected
| installEventFilter
| removeEventFilter
| headsUpDisplay_create (name : string)
| headsUpDisplay_exists (name : string)
| headsUpDisplay_remove (name : string).

Record Host := {
  focusPanel : option string;            (* panel holding the focus, if any *)
  panelType : string → string;           (* type name of a panel *)
  panelCamera : string → string;         (* camera shown by a model panel *)
  translation : string → R * R * R;      (* world position of a camera *)
  centerOfInterest : string → R * R * R; (* world centre of interest *)
  attribute : string → list R;           (* matrix attributes, by full name *)
  filterInstalled : bool;                (* main window's filter list *)
  huds : gset string;                    (* heads-up displays that exist *)
  calls : list Call;                     (* calls made so far, oldest first *)
}.

(** State-passing commands over the host. *)
Definition cmd (A : Type) : Type := Host → A * Host.

Definition ret {A} (a : A) : cmd A := λ h, (a, h).

Definition bind {A B} (c : cmd A) (k : A → cmd B) : cmd B :=
  λ h, let '(a, h') := c h in k a h'.

Notation "x <- c ;; k" := (bind c (λ x, k))
  (at level 20, c at level 99, k at level 200, only parsing).
Notation "c ;; k" := (bind c (λ _, k))
  (at level 100, k at level 200, right associativity, only parsing).

Definition exec {A} (c : cmd A) (h : Host) : Host := snd (c h).
Definition result {A} (c : cmd A) (h : Host) : A := fst (c h).

(** The calls a command adds to the log when run from [h]. *)
Definition calls_of {A} (c : cmd A) (h : Host) : list Call :=
  drop (List.length (calls h)) (calls (exec c h)).

Definition log (c : Call) (h : Host) : Host :=
  {| focusPanel := focusPanel h; panelType := panelType h;
     panelCamera := panelCamera h; translation := translation h;
     centerOfInterest := centerOfInterest h; attribute := attribute h;
     filterInstalled := filterInstalled h; huds := huds h;
     calls := calls h ++ [c] |}.

Definition set_translation (cam : string) (pos : R * R * R) (h : Host) : Host :=
  {| focusPanel := focusPanel h; panelType := panelType h;
     panelCamera := panelCamera h;
     translation := λ c, if String.eqb c cam then pos else translation h c;
     centerOfInterest := centerOfInterest h; attribute := attribute h;
     filterInstalled := filterInstalled h; huds := huds h;
     calls := calls h |}.

Definition set_filterInstalled (b : bool) (h : Host) : Host :=
  {| focusPanel := focusPanel h; panelType := panelType h;
     panelCamera := panelCamera h; translation := translation h;
     centerOfInterest := centerOfInterest h; attribute := attribute h;
     filterInstalled := b; huds := huds h;
     calls := calls h |}.

Definition set_huds (s : gset string) (h : Host) : Host :=
  {| focusPanel := focusPanel h; panelType := panelType h;
     panelCamera := panelCamera h; translation := translation h;
     centerOfInterest := centerOfInterest h; attribute := attribute h;
     filterInstalled := filterInstalled h; huds := s;
     calls := calls h |}.

(** [maya.cmds] and [mayaMainWindow], as far as the module calls them. *)
Module cmds.
(** [cmds.getPanel(withFocus=True)] *)
Definition getPanel_withFocus : cmd (option string) :=
  λ h, (focusPanel h, log getPanel_withFocus h).

(** [cmds.getPanel(typeOf=panel)] *)
Definition getPanel_typeOf (panel : string) : cmd string :=
  λ h, (panelType h panel, log (getPanel_typeOf panel) h).

(** [cmds.modelEditor(panel, query=True, camera=True)] *)
Definition modelEditor_camera (panel : string) : cmd string :=
  λ h, (panelCamera h panel, log (modelEditor_camera panel) h).

(** [cmds.xform(cam, q=True, ws=True, t=True)] *)
Definition xform_query (cam : string) : cmd (R * R * R) :=
  λ h, (translation h cam, log (xform_query_translation cam) h).

(** [cmds.camera(cam, q=True, worldCenterOfInterest=True)] *)
Definition camera_worldCenterOfInterest (cam : string) : cmd (R * R * R) :=
  λ h, (centerOfInterest h cam, log (camera_worldCenterOfInterest cam) h).

(** [cmds.getAttr(name)] *)
Definition getAttr (name : string) : cmd (list R) :=
  λ h, (attribute h name, log (getAttr name) h).

(** [cmds.xform(cam, ws=True, t=pos)] *)
Definition xform_set (cam : string) (pos : R * R * R) : cmd unit :=
  λ h, (tt, log (xform_set_translation cam pos) (set_translation cam pos h)).

(** [cmds.refresh()] *)
Definition refresh : cmd unit := λ h, (tt, log refresh h).

Definition LookAtSelection : cmd unit := λ h, (tt, log LookAtSelection h).
Definition FrameSelected : cmd unit := λ h, (tt, log FrameSelected h).

(** [cmds.headsUpDisplay(name, section=5, block=1, ...)] *)
Definition headsUpDisplay_create (name : string) : cmd unit :=
  λ h, (tt, log (headsUpDisplay_create name) (set_huds ({[name]} ∪ huds h) h)).

(** [cmds.headsUpDisplay(name, exists=True)] *)
Definition headsUpDisplay_exists (name : string) : cmd bool :=
  λ h, (bool_decide (name ∈ huds h), log (headsUpDisplay_exists name) h).

(** [cmds.headsUpDisplay(name, remove=True)] *)
Definition headsUpDisplay_remove (name : string) : cmd unit :=
  λ h, (tt, log (headsUpDisplay_remove name) (set_huds (huds h ∖ {[name]}) h)).
End cmds.

Module mayaMainWindow.
(** Qt keeps one entry per filter object: installing it again does not
    duplicate it, removing an absent one does nothing. *)
Definition installEventFilter : cmd unit :=
  λ h, (tt, log installEventFilter (set_filterInstalled true h)).
Definition removeEventFilter : cmd unit :=
  λ h, (tt, log removeEventFilter (set_filterInstalled false h)).
End mayaMainWindow.


(** ** [class CameraControlFilter] *)

Record CameraControlFilter := {
  moveStep : R;
  _movingKeys : gset Z;
  _altPressed : bool;
  moveTimer : QTimer.t;
}.

(** Precomputed mapping from key to local direction vector: the entries of
    the dict literal, and the dict. *)
Definition KEY_VECTORS_items : list (Z * om.MVector) :=
  [ (Qt.Key_A, om.mk (-1) 0 0);     (* left *)
    (Qt.Key_D, om.mk 1 0 0);        (* right *)
    (Qt.Key_W, om.mk 0 0 (-1));     (* forward *)
    (Qt.Key_S, om.mk 0 0 1);        (* backward *)
    (Qt.Key_E, om.mk 0 1 0);        (* up *)
    (Qt.Key_Q, om.mk 0 (-1) 0) ].   (* down *)

Definition KEY_VECTORS : gmap Z om.MVector := list_to_map KEY_VECTORS_items.

Definition MOVE_SCALE_FACTOR : R := 0.1.
Definition DEFAULT_TIMER_MS : Z := 5.

(** [__init__(self, moveStep=0.1)]: nothing held, Alt up, timer created
    with its interval and not started. *)
Definition CameraControlFilter_init (moveStep : R) : CameraControlFilter :=
  {| moveStep := moveStep;
     _movingKeys := ∅;
     _altPressed := false;
     moveTimer := QTimer.setInterval DEFAULT_TIMER_MS (QTimer.Build 0 false) |}.

Definition set_moveStep (s : R) (self : CameraControlFilter) :=
  {| moveStep := s; _movingKeys := _movingKeys self;
     _altPressed := _altPressed self; moveTimer := moveTimer self |}.

Definition set_movingKeys (ks : gset Z) (self : CameraControlFilter) :=
  {| moveStep := moveStep self; _movingKeys := ks;
     _altPressed := _altPressed self; moveTimer := moveTimer self |}.

Definition set_altPressed (b : bool) (self : CameraControlFilter) :=
  {| moveStep := moveStep self; _movingKeys := _movingKeys self;
     _altPressed := b; moveTimer := moveTimer self |}.

Definition set_moveTimer (tm : QTimer.t) (self : CameraControlFilter) :=
  {| moveStep := moveStep self; _movingKeys := _movingKeys self;
     _altPressed := _altPressed self; moveTimer := tm |}.

(** Python truth value of a set: [not s] holds when [s] is empty. *)
Definition is_empty (ks : gset Z) : bool := bool_decide (ks = ∅).

(** [key in self.KEY_VECTORS] *)
Definition in_KEY_VECTORS (key : Z) : bool :=
  bool_decide (is_Some (KEY_VECTORS !! key)).

Definition _startMovementTimer (self : CameraControlFilter) : CameraControlFilter :=
  if is_empty (_movingKeys self) && negb (QTimer.isActive (moveTimer self))
  then set_moveTimer (QTimer.start (moveTimer self)) self
  else self.

Definition _stopMovementTimer (self : CameraControlFilter) : CameraControlFilter :=
  if QTimer.isActive (moveTimer self)
  then set_moveTimer (QTimer.stop (moveTimer self)) self
  else self.

(** The [KeyPress] branch of [eventFilter]. *)
Definition on_KeyPress (self : CameraControlFilter) (event : QEvent.t)
    : cmd CameraControlFilter :=
  let key := QEvent.key event in
  if (key =? Qt.Key_Alt)%Z then
    ret (set_altPressed true self)
  else if _altPressed self && (key =? Qt.Key_F)%Z then
    (* frame selected *)
    cmds.LookAtSelection ;;
    cmds.FrameSelected ;;
    ret self
  else if _altPressed self && in_KEY_VECTORS key
          && negb (QEvent.isAutoRepeat event) then
    (* the timer is started before the key is added *)
    let self := _startMovementTimer self in
    ret (set_movingKeys ({[key]} ∪ _movingKeys self) self)
  else ret self.

(** The [KeyRelease] branch of [eventFilter]: three statements in a row. *)
Definition on_KeyRelease (self : CameraControlFilter) (event : QEvent.t)
    : CameraControlFilter :=
  let key := QEvent.key event in
  let self :=
    if (key =? Qt.Key_Alt)%Z
    then set_movingKeys ∅ (set_altPressed false self)
    else self in
  let self :=
    if negb (QEvent.isAutoRepeat event) then
      if bool_decide (key ∈ _movingKeys self)
      then set_movingKeys (_movingKeys self ∖ {[key]}) self
      else self
    else self in
  if negb (_altPressed self) || is_empty (_movingKeys self)
  then _stopMovementTimer self
  else self.

(** [eventFilter(self, obj, event)]; [obj], the watched object, is unused.
    Returns the value handed back to Qt together with the updated filter. *)
Definition eventFilter (self : CameraControlFilter) (event : QEvent.t)
    : cmd (bool * CameraControlFilter) :=
  self <- match QEvent.type event with
          | QEvent.KeyPress => on_KeyPress self event
          | QEvent.KeyRelease => ret (on_KeyRelease self event)
          | QEvent.Other => ret self
          end ;;
  ret (false, self).

(** The sum accumulated by the loop [for key in self._movingKeys], for the
    keys visited in the order [ks]. *)
Definition sum_key_vectors (ks : list Z) : om.MVector :=
  foldl (λ moveVector key,
           om.add moveVector (default (om.mk 0 0 0) (KEY_VECTORS !! key)))
        om.zero ks.

(** Python's truth value of the string-or-None that [getPanel] returns. *)
Definition truthy (panel : option string) : option string :=
  match panel with
  | Some p => if String.eqb p "" then None else Some p
  | None => None
  end.

Definition moveCameraLocal (self : CameraControlFilter)
    (localDir : om.MVector) (distance : R) : cmd unit :=
  panel <- cmds.getPanel_withFocus ;;
  (* Only operate when the focused panel is a viewport (modelPanel) *)
  match truthy panel with
  | None => ret tt
  | Some panel =>
    ty <- cmds.getPanel_typeOf panel ;;
    if negb (String.eqb ty "modelPanel") then ret tt
    else
      cam <- cmds.modelEditor_camera panel ;;
      camPos <- cmds.xform_query cam ;;
      let camPos := om.of_triple camPos in
      coiPos <- cmds.camera_worldCenterOfInterest cam ;;
      let coiPos := om.of_triple coiPos in
      camMat <- cmds.getAttr (String.append cam ".worldMatrix") ;;
      let scaleMetric := om.length (om.sub coiPos camPos) in
      let scaledDistance := (distance * scaleMetric * MOVE_SCALE_FACTOR)%R in
      let worldDir := om.normal (om.mul_matrix localDir camMat) in
      let newCamPos := om.add camPos (om.scale worldDir scaledDistance) in
      cmds.xform_set cam (om.x newCamPos, om.y newCamPos, om.z newCamPos) ;;
      cmds.refresh
  end.

(** The timer's callback.  The set is visited in the order [elements]
    gives; [sum_key_vectors_perm] below shows the order does not matter. *)
Definition moveCameraLoop (self : CameraControlFilter) : cmd unit :=
  if negb (_altPressed self) || is_empty (_movingKeys self) then ret tt
  else
    let moveVector := sum_key_vectors (elements (_movingKeys self)) in
    if Rlt_dec 0 (om.length moveVector) then
      let moveVector := om.normal moveVector in
      (* Constant distance per tick ensures linear motion over time *)
      moveCameraLocal self moveVector (moveStep self)
    else ret tt.

(** ** [class ViewportControlPanel] *)

Definition STEP_MIN : R := 0.01.
Definition STEP_MAX : R := 0.20.

(** [clamp(value, min_value, max_value)] on floats. *)
Definition clamp (value min_value max_value : R) : R :=
  Rmax min_value (Rmin max_value value).

Record ViewportControlPanel := {
  cameraFilter : CameraControlFilter;  (* the panel owns its filter *)
  isInstalled : bool;
  enabledButton_text : string;
  stepValueLabel : R;                  (* the number the label shows *)
}.

Definition HUD_NAME : string := "wasd_viewport_controls".

Definition installCameraControls (self : ViewportControlPanel)
    : cmd ViewportControlPanel :=
  mayaMainWindow.installEventFilter ;;
  let self := {| cameraFilter := cameraFilter self; isInstalled := true;
                 enabledButton_text := enabledButton_text self;
                 stepValueLabel := stepValueLabel self |} in
  cmds.headsUpDisplay_create HUD_NAME ;;
  ret self.

Definition uninstallCameraControls (self : ViewportControlPanel)
    : cmd ViewportControlPanel :=
  mayaMainWindow.removeEventFilter ;;
  let self := {| cameraFilter := cameraFilter self; isInstalled := false;
                 enabledButton_text := enabledButton_text self;
                 stepValueLabel := stepValueLabel self |} in
  ex <- cmds.headsUpDisplay_exists HUD_NAME ;;
  (if ex : bool then cmds.headsUpDisplay_remove HUD_NAME else ret tt) ;;
  ret self.

Definition onEnabledToggled (self : ViewportControlPanel) (checked : bool)
    : cmd ViewportControlPanel :=
  self <- (if checked && negb (isInstalled self) then installCameraControls self
           else if negb checked && isInstalled self then uninstallCameraControls self
           else ret self) ;;
  ret {| cameraFilter := cameraFilter self; isInstalled := isInstalled self;
         enabledButton_text := if isInstalled self then "DISABLE" else "ENABLE";
         stepValueLabel := stepValueLabel self |}.

Definition onStepSliderChanged (self : ViewportControlPanel) (val : Z)
    : ViewportControlPanel :=
  let step := clamp (IZR val / 100.0) STEP_MIN STEP_MAX in
  {| cameraFilter := set_moveStep step (cameraFilter self);
     isInstalled := isInstalled self;
     enabledButton_text := enabledButton_text self;
     stepValueLabel := step |}.

(** [ViewportControlPanel.__init__], reduced to the fields kept here. *)
Definition ViewportControlPanel_init : ViewportControlPanel :=
  {| cameraFilter := CameraControlFilter_init 0.1;
     isInstalled := false;
     enabledButton_text := "ENABLE";
     stepValueLabel := 0.1 |}.

(** ** Running the filter over a stream of events *)

(** The events of [evs] delivered in order to the filter. *)
Fixpoint run_events (self : CameraControlFilter) (evs : list QEvent.t)
    : cmd CameraControlFilter :=
  match evs with
  | [] => ret self
  | ev :: evs => r <- eventFilter self ev ;; run_events (snd r) evs
  end.

Definition press (key : Z) : QEvent.t := QEvent.Build QEvent.KeyPress key false.
Definition release (key : Z) : QEvent.t := QEvent.Build QEvent.KeyRelease key false.
Definition repeat_press (key : Z) : QEvent.t := QEvent.Build QEvent.KeyPress key true.
Definition repeat_release (key : Z) : QEvent.t := QEvent.Build QEvent.KeyRelease key true.

(** A session with the perspective view focused: camera [persp] at
    [(0, 0, 10)] looking at the origin, with the identity as orientation. *)
Definition persp_host : Host :=
  {| focusPanel := Some "modelPanel4";
     panelType := λ p, if String.eqb p "modelPanel4" then "modelPanel"
                       else "outlinerPanel";
     panelCamera := λ _, "persp";
     translation := λ _, (0, 0, 10)%R;
     centerOfInterest := λ _, (0, 0, 0)%R;
     attribute := λ _, om.identity;
     filterInstalled := true;
     huds := {[ HUD_NAME ]};
     calls := [] |}.

(** The same session with the outliner focused instead of a viewport. *)
Definition outliner_host : Host :=
  {| focusPanel := Some "outlinerPanel1";
     panelType := panelType persp_host;
     panelCamera := panelCamera persp_host;
     translation := translation persp_host;
     centerOfInterest := centerOfInterest persp_host;
     attribute := attribute persp_host;
     filterInstalled := true;
     huds := {[ HUD_NAME ]};
     calls := [] |}.

(** The filter after Alt went down, and after Alt and then further keys
    went down, in [persp_host]. *)
Definition holding_Alt : CameraControlFilter :=
  result (run_events (CameraControlFilter_init 0.1) [press Qt.Key_Alt]) persp_host.

Definition holding_W : CameraControlFilter :=
  result (run_events (CameraControlFilter_init 0.1)
                     [press Qt.Key_Alt; press Qt.Key_W]) persp_host.

Definition holding_A_D : CameraControlFilter :=
  result (run_events (CameraControlFilter_init 0.1)
                     [press Qt.Key_Alt; press Qt.Key_A; press Qt.Key_D]) persp_host.

(** ** Notions the statements below are phrased with *)

(** What ties the timer to the two fields: it runs exactly when a key is
    held, and keys are only ever held under Alt. *)
Definition timer_inv (self : CameraControlFilter) : Prop :=
  QTimer.isActive (moveTimer self) = negb (is_empty (_movingKeys self))
  ∧ is_empty (_movingKeys self) || _altPressed self = true.

(** [KEY_VECTORS.get(key, MVector(0, 0, 0))], the summand of the loop. *)
Definition key_vector (key : Z) : om.MVector :=
  default (om.mk 0 0 0) (KEY_VECTORS !! key).

(** The vector sum of the table entries whose key is held, read off the
    table rather than off the set. *)
Definition held_direction_sum (ks : gset Z) : om.MVector :=
  foldr (λ kv acc, if bool_decide (kv.1 ∈ ks) then om.add kv.2 acc else acc)
        om.zero KEY_VECTORS_items.

(** The same sum by components: each axis has one key per sign. *)
Definition held (key : Z) (ks : gset Z) : R :=
  if bool_decide (key ∈ ks) then 1%R else 0%R.

Definition composite (ks : gset Z) : om.MVector :=
  om.mk (held Qt.Key_D ks - held Qt.Key_A ks)
        (held Qt.Key_E ks - held Qt.Key_Q ks)
        (held Qt.Key_S ks - held Qt.Key_W ks).

Definition triple (v : om.MVector) : R * R * R := (om.x v, om.y v, om.z v).

(** [P + normalize(d * M) * (step * distance(C, P) * MOVE_SCALE_FACTOR)] *)
Definition tick_position (P C : om.MVector) (M : om.MMatrix)
    (d : om.MVector) (step : R) : om.MVector :=
  om.add P (om.scale (om.normal (om.mul_matrix d M))
                     (step * om.length (om.sub C P) * MOVE_SCALE_FACTOR)).

(** The two queries by which a tick finds out what has the focus. *)
Definition is_focus_check (c : Call) : Prop :=
  c = getPanel_withFocus ∨ ∃ panel, c = getPanel_typeOf panel.

(** The host reports no focused panel, or one that is not a viewport. *)
Definition no_viewport_focused (h : Host) : Prop :=
  focusPanel h = None ∨ focusPanel h = Some ""
  ∨ ∃ panel, focusPanel h = Some panel ∧ panelType h panel ≠ "modelPanel".

(** A value clamped to [[lo, hi]], case by case. *)
Definition clamped_to (lo hi v : R) : R :=
  if Rlt_dec v lo then lo else if Rlt_dec hi v then hi else v.

(** ** The module as wired up: signals and slots *)

Definition set_cameraFilter (f : CameraControlFilter)
    (self : ViewportControlPanel) : ViewportControlPanel :=
  {| cameraFilter := f; isInstalled := isInstalled self;
     enabledButton_text := enabledButton_text self;
     stepValueLabel := stepValueLabel self |}.

(** What Qt can deliver to the module: a key event to the filter while it
    is installed on the main window, [moveTimer.timeout] while the timer is
    active, and the two signals the panel connects in [__init__]. *)
Inductive Action :=
| KeyEvent (event : QEvent.t)
| Timeout
| Toggled (checked : bool)
| ValueChanged (val : Z).

Definition dispatch (self : ViewportControlPanel) (a : Action)
    : cmd ViewportControlPanel :=
  match a with
  | KeyEvent event =>
      λ h, if filterInstalled h
           then (r <- eventFilter (cameraFilter self) event ;;
                 ret (set_cameraFilter (snd r) self)) h
           else (self, h)
  | Timeout =>
      if QTimer.isActive (moveTimer (cameraFilter self))
      then moveCameraLoop (cameraFilter self) ;; ret self
      else ret self
  | Toggled checked => onEnabledToggled self checked
  | ValueChanged val => ret (onStepSliderChanged self val)
  end.

Fixpoint run (self : ViewportControlPanel) (actions : list Action)
    : cmd ViewportControlPanel :=
  match actions with
  | [] => ret self
  | a :: actions => self <- dispatch self a ;; run self actions
  end.

(** A session in which the module has just been loaded: no filter on the
    main window, no heads-up display, nothing logged. *)
Definition fresh_host : Host :=
  {| focusPanel := focusPanel persp_host;
     panelType := panelType persp_host;
     panelCamera := panelCamera persp_host;
     translation := translation persp_host;
     centerOfInterest := centerOfInterest persp_host;
     attribute := attribute persp_host;
     filterInstalled := false;
     huds := ∅;
     calls := [] |}.

(** ** [refreshFromFilter] and the widgets it drives *)

(** Python's [round(x)]: the nearest integer, a tie going to the even one. *)
Definition py_round (x : R) : Z :=
  let n := Int_part x in
  let f := frac_part x in
  if Rlt_dec f (1 / 2) then n
  else if Rlt_dec (1 / 2) f then (n + 1)%Z
  else if Z.even n then n else (n + 1)%Z.

(** Python's [int(x)] on a float: truncation toward zero. *)
Definition py_int (x : R) : Z :=
  if Rle_dec 0 x then Int_part x else (- Int_part (- x))%Z.

(** [clamp(value, min_value, max_value)] on ints. *)
Definition clamp_int (value min_value max_value : Z) : Z :=
  Z.max min_value (Z.min max_value value).

(** The panel together with the state of its two input widgets.  The
    slider's range is the one [__init__] sets with [setRange]. *)
Record PanelWidgets := {
  panel : ViewportControlPanel;
  enabledButton_checked : bool;
  stepSlider_value : Z;
}.

Definition stepSlider_minimum : Z := py_int (STEP_MIN * 100).
Definition stepSlider_maximum : Z := py_int (STEP_MAX * 100).

(** [enabledButton.setChecked(b)]: a change of state emits [toggled(b)],
    which runs [onEnabledToggled]; no change, no signal. *)
Definition setChecked (b : bool) (w : PanelWidgets) : cmd PanelWidgets :=
  if Bool.eqb (enabledButton_checked w) b then ret w
  else
    p <- onEnabledToggled (panel w) b ;;
    ret {| panel := p; enabledButton_checked := b;
           stepSlider_value := stepSlider_value w |}.

(** [stepSlider.setValue(v)]: the value is bounded to the slider's range;
    a change emits [valueChanged], which runs [onStepSliderChanged]. *)
Definition setValue (v : Z) (w : PanelWidgets) : PanelWidgets :=
  let v := Z.max stepSlider_minimum (Z.min stepSlider_maximum v) in
  if (stepSlider_value w =? v)%Z then w
  else {| panel := onStepSliderChanged (panel w) v;
          enabledButton_checked := enabledButton_checked w;
          stepSlider_value := v |}.

Definition refreshFromFilter (w : PanelWidgets) : cmd PanelWidgets :=
  (* Enabled state reflects whether filter is installed *)
  w <- setChecked (isInstalled (panel w)) w ;;
  (* Step *)
  let step := moveStep (cameraFilter (panel w)) in
  let stepInt := clamp_int (py_round (step * 100))
                           (py_int (STEP_MIN * 100)) (py_int (STEP_MAX * 100)) in
  let w := setValue stepInt w in
  ret {| panel := {| cameraFilter := cameraFilter (panel w);
                     isInstalled := isInstalled (panel w);
                     enabledButton_text := enabledButton_text (panel w);
                     stepValueLabel := step |};
         enabledButton_checked := enabledButton_checked w;
         stepSlider_value := stepSlider_value w |}.

(** ** Further notions *)

(** The six keys of [KEY_VECTORS]. *)
Definition navigation_keys : gset Z :=
  {[ Qt.Key_A; Qt.Key_D; Qt.Key_W; Qt.Key_S; Qt.Key_E; Qt.Key_Q ]}.

(** What the whole module keeps true of the filter. *)
Definition filter_inv (self : CameraControlFilter) : Prop :=
  timer_inv self
  ∧ _movingKeys self ⊆ navigation_keys
  ∧ (STEP_MIN <= moveStep self <= STEP_MAX)%R
  ∧ QTimer.interval (moveTimer self) = DEFAULT_TIMER_MS.

(** The panel's flag, its button text and the host agree. *)
Definition install_inv (self : ViewportControlPanel) (h : Host) : Prop :=
  filterInstalled h = isInstalled self
  ∧ (HUD_NAME ∈ huds h ↔ isInstalled self = true).

(** The event is a press of Alt. *)
Definition is_Alt_press (event : QEvent.t) : Prop :=
  QEvent.type event = QEvent.KeyPress ∧ QEvent.key event = Qt.Key_Alt.

(** Nothing held, Alt up, timer stopped. *)
Definition idle (self : CameraControlFilter) : Prop :=
  _altPressed self = false ∧ _movingKeys self = ∅
  ∧ QTimer.isActive (moveTimer self) = false.

(** The main window's filter list and the heads-up displays are the same
    in both hosts. *)
Definition same_windows (h h' : Host) : Prop :=
  filterInstalled h' = filterInstalled h ∧ huds h' = huds h.

(** What [setChecked(self.isInstalled)] amounts to: the handler it may
    trigger finds the flag already equal to [checked] and only rewrites the
    button text. *)
Definition checked_in_line (w : PanelWidgets) : PanelWidgets :=
  if Bool.eqb (enabledButton_checked w) (isInstalled (panel w)) then w
  else {| panel :=
            {| cameraFilter := cameraFilter (panel w);
               isInstalled := isInstalled (panel w);
               enabledButton_text :=
                 if isInstalled (panel w) then "DISABLE" else "ENABLE";
               stepValueLabel := stepValueLabel (panel w) |};
          enabledButton_checked := isInstalled (panel w);
          stepSlider_value := stepSlider_value w |}.

(** An enabled panel whose filter has W held under Alt. *)
Definition moving_panel : ViewportControlPanel :=
  {| cameraFilter := holding_W; isInstalled := true;
     enabledButton_text := "DISABLE"; stepValueLabel := 0.1 |}.

(** The perspective view with the camera sitting on its centre of
    interest. *)
Definition collapsed_host : Host :=
  {| focusPanel := focusPanel persp_host;
     panelType := panelType persp_host;
     panelCamera := panelCamera persp_host;
     translation := translation persp_host;
     centerOfInterest := translation persp_host;
     attribute := attribute persp_host;
     filterInstalled := true;
     huds := {[ HUD_NAME ]};
     calls := [] |}.

(** * Properties *)

(** ** Commands and the call log *)

Lemma calls_of_ret {A} (a : A) h : calls_of (ret a) h = [].
Proof. unfold calls_of, exec, ret. simpl. by rewrite drop_all. Qed.

Lemma calls_of_extends {A} (c : cmd A) h l :
  calls (exec c h) = calls h ++ l → calls_of c h = l.
Proof. unfold calls_of. intros ->. by rewrite drop_app_length. Qed.

(** ** The event filter *)

Lemma is_empty_false ks : is_empty ks = false ↔ ks ≠ ∅.
Proof. unfold is_empty. by rewrite bool_decide_eq_false. Qed.

Lemma is_empty_insert k ks : is_empty ({[k]} ∪ ks) = false.
Proof. apply is_empty_false. set_solver. Qed.

Lemma is_empty_elem k ks : k ∈ ks → is_empty ks = false.
Proof. intros Hin. apply is_empty_false. set_solver. Qed.

(** The filter a key press leaves behind; only the frame key talks to the
    host, and it leaves the filter alone. *)
Lemma on_KeyPress_result self ev h :
  result (on_KeyPress self ev) h =
  let key := QEvent.key ev in
  if (key =? Qt.Key_Alt)%Z then set_altPressed true self
  else if _altPressed self && (key =? Qt.Key_F)%Z then self
  else if _altPressed self && in_KEY_VECTORS key && negb (QEvent.isAutoRepeat ev)
       then set_movingKeys ({[key]} ∪ _movingKeys (_startMovementTimer self))
                           (_startMovementTimer self)
       else self.
Proof.
  unfold on_KeyPress, result, bind, ret. simpl.
  repeat case_match; reflexivity.
Qed.

Lemma eventFilter_result self ev h :
  result (eventFilter self ev) h =
  (false,
   match QEvent.type ev with
   | QEvent.KeyPress => result (on_KeyPress self ev) h
   | QEvent.KeyRelease => on_KeyRelease self ev
   | QEvent.Other => self
   end).
Proof.
  unfold eventFilter, result, bind, ret.
  destruct (QEvent.type ev); simpl; try reflexivity.
  by destruct (on_KeyPress self ev h).
Qed.

Lemma run_events_cons self ev evs h :
  run_events self (ev :: evs) h
  = run_events (snd (result (eventFilter self ev) h)) evs
               (exec (eventFilter self ev) h).
Proof.
  simpl. unfold bind, result, exec. by destruct (eventFilter self ev h).
Qed.

(** *** The timer invariant *)

Lemma timer_inv_init s : timer_inv (CameraControlFilter_init s).
Proof. by split. Qed.

Lemma timer_inv_KeyPress self ev h :
  timer_inv self → timer_inv (result (on_KeyPress self ev) h).
Proof.
  rewrite on_KeyPress_result. unfold _startMovementTimer, timer_inv.
  destruct self as [ms ks alt [iv act]], ev as [ty key rep]; simpl.
  intros [-> Ha].
  destruct (key =? Qt.Key_Alt)%Z, alt, (key =? Qt.Key_F)%Z,
    (in_KEY_VECTORS key), rep, (is_empty ks) eqn:He; simpl in *;
    rewrite ?is_empty_insert, ?He; done.
Qed.

Lemma timer_inv_KeyRelease self ev :
  timer_inv self → timer_inv (on_KeyRelease self ev).
Proof.
  unfold on_KeyRelease, timer_inv, _stopMovementTimer.
  destruct self as [ms ks alt [iv act]], ev as [ty key rep]; simpl.
  intros [-> Ha].
  destruct (key =? Qt.Key_Alt)%Z; simpl.
  - (* Alt: the set was just emptied, so nothing is left to remove *)
    rewrite bool_decide_eq_false_2 by set_solver.
    by destruct rep, (is_empty ks).
  - destruct rep; simpl.
    + by destruct alt, (is_empty ks) eqn:He; simpl in *; rewrite ?He.
    + case_bool_decide as Hin; simpl.
      * (* a held key goes up: Alt is down, the timer was running *)
        rewrite (is_empty_elem _ _ Hin) in Ha |- *. simpl in Ha. subst alt. simpl.
        by destruct (is_empty (ks ∖ {[key]})) eqn:He; simpl; rewrite ?He.
      * by destruct alt, (is_empty ks) eqn:He; simpl in *; rewrite ?He.
Qed.

Lemma timer_inv_eventFilter self ev h :
  timer_inv self → timer_inv (snd (result (eventFilter self ev) h)).
Proof.
  intros Hinv. rewrite eventFilter_result. simpl.
  destruct (QEvent.type ev);
    auto using timer_inv_KeyPress, timer_inv_KeyRelease.
Qed.

Lemma timer_inv_run_events evs : ∀ self h,
  timer_inv self → timer_inv (result (run_events self evs) h).
Proof.
  induction evs as [|ev evs IH]; intros self h Hinv; [done|].
  unfold result. rewrite run_events_cons.
  apply IH. by apply timer_inv_eventFilter.
Qed.

Lemma timer_inv_spec self :
  timer_inv self →
  QTimer.isActive (moveTimer self)
  = _altPressed self && negb (is_empty (_movingKeys self)).
Proof.
  intros [-> Ha]. by destruct (is_empty _), (_altPressed self).
Qed.

(** C1.  Start from a freshly built filter and deliver any list of events
    (presses, releases and other events, of any key, repeated or not).
    After each of them, that is after every prefix of the list, the timer is
    active exactly when [_altPressed] is set and [_movingKeys] is not
    empty. *)
Theorem timer_active_iff_chord_and_keys
    (moveStep : R) (evs : list QEvent.t) (n : nat) (h : Host) :
  let self := result (run_events (CameraControlFilter_init moveStep)
                                 (take n evs)) h in
  QTimer.isActive (moveTimer self) = true
  ↔ _altPressed self = true ∧ _movingKeys self ≠ ∅.
Proof.
  intros self.
  assert (timer_inv self) as Hinv
    by apply timer_inv_run_events, timer_inv_init.
  rewrite (timer_inv_spec _ Hinv), andb_true_iff, negb_true_iff.
  by rewrite is_empty_false.
Qed.

(** C4.  Whatever the filter holds before (any keys, Alt flag either way,
    timer running or not), a release of Alt, repeated or not, leaves the
    flag cleared, no key held and the timer stopped. *)
Theorem release_Alt_cancels_movement
    (self : CameraControlFilter) (rep : bool) (h : Host) :
  let event := QEvent.Build QEvent.KeyRelease Qt.Key_Alt rep in
  let self' := snd (result (eventFilter self event) h) in
  _altPressed self' = false
  ∧ _movingKeys self' = ∅
  ∧ QTimer.isActive (moveTimer self') = false.
Proof.
  intros event self'. subst event self'.
  rewrite eventFilter_result. unfold on_KeyRelease, _stopMovementTimer.
  destruct self as [ms ks alt [iv act]]; simpl.
  rewrite bool_decide_eq_false_2 by set_solver.
  by destruct rep, act.
Qed.

(** C10.  The filter hands [False] back to Qt for every event in every
    state: it watches the events and never swallows one. *)
Theorem eventFilter_returns_False
    (self : CameraControlFilter) (event : QEvent.t) (h : Host) :
  fst (result (eventFilter self event) h) = false.
Proof. by rewrite eventFilter_result. Qed.

(** *** Auto-repeat *)

(** C5, as the code has it.  An event flagged as auto-repeat leaves
    [_movingKeys] as it was, unless it is a release of Alt: that one is
    handled before the flag is looked at, and empties the set. *)
Theorem auto_repeat_keeps_held_keys
    (self : CameraControlFilter) (event : QEvent.t) (h : Host) :
  QEvent.isAutoRepeat event = true →
  ¬ (QEvent.type event = QEvent.KeyRelease ∧ QEvent.key event = Qt.Key_Alt) →
  _movingKeys (snd (result (eventFilter self event) h)) = _movingKeys self.
Proof.
  intros Hrep Hnot. rewrite eventFilter_result. simpl.
  destruct event as [ty key rep]. simpl in *. subst rep.
  destruct ty; [|clear h|done].
  - rewrite on_KeyPress_result. simpl. rewrite andb_false_r.
    by destruct (key =? Qt.Key_Alt)%Z, (_altPressed self && (key =? Qt.Key_F)%Z).
  - unfold on_KeyRelease, _stopMovementTimer. simpl.
    destruct (Z.eqb_spec key Qt.Key_Alt) as [->|_]; [by destruct Hnot|].
    destruct self as [ms ks alt [iv act]]; simpl.
    by destruct alt, (is_empty ks), act.
Qed.

(** With W held under Alt, the repeated presses of W change nothing. *)
Lemma auto_repeat_keeps_held_keys_witness :
  QEvent.isAutoRepeat (repeat_press Qt.Key_W) = true
  ∧ ¬ (QEvent.type (repeat_press Qt.Key_W) = QEvent.KeyRelease
       ∧ QEvent.key (repeat_press Qt.Key_W) = Qt.Key_Alt)
  ∧ _movingKeys (snd (result (eventFilter holding_W (repeat_press Qt.Key_W))
                             persp_host))
    = _movingKeys holding_W.
Proof.
  assert (¬ (QEvent.type (repeat_press Qt.Key_W) = QEvent.KeyRelease
             ∧ QEvent.key (repeat_press Qt.Key_W) = Qt.Key_Alt)) as Hnot.
  { intros [Hty _]. discriminate Hty. }
  split; [reflexivity|]. split; [exact Hnot|].
  exact (auto_repeat_keeps_held_keys holding_W (repeat_press Qt.Key_W)
           persp_host eq_refl Hnot).
Defined.

(** C5, as stated, fails for the modifier: with W held under Alt, a release
    of Alt flagged as auto-repeat empties the set. *)
Lemma auto_repeat_release_Alt_clears_held_keys :
  QEvent.isAutoRepeat (repeat_release Qt.Key_Alt) = true
  ∧ _movingKeys holding_W = {[Qt.Key_W]}
  ∧ _movingKeys (snd (result (eventFilter holding_W (repeat_release Qt.Key_Alt))
                             persp_host)) = ∅
  ∧ _movingKeys (snd (result (eventFilter holding_W (repeat_release Qt.Key_Alt))
                             persp_host))
    ≠ _movingKeys holding_W.
Proof.
  assert (_movingKeys holding_W = {[Qt.Key_W]}) as Hbefore by reflexivity.
  assert (_movingKeys (snd (result (eventFilter holding_W
                                      (repeat_release Qt.Key_Alt)) persp_host))
          = ∅) as Hafter by reflexivity.
  split; [reflexivity|]. split; [exact Hbefore|]. split; [exact Hafter|].
  rewrite Hafter, Hbefore. intros Heq.
  apply (not_elem_of_empty (C:=gset Z) Qt.Key_W). rewrite Heq. set_solver.
Qed.

(** *** The frame key *)

(** C6, as the code has it.  A press of F, repeated or not, runs
    [LookAtSelection] and then [FrameSelected] once each when [_altPressed]
    is set, and calls nothing otherwise; the auto-repeat flag is not
    consulted on this branch. *)
Theorem frame_key_press_frames_once
    (self : CameraControlFilter) (rep : bool) (h : Host) :
  calls_of (eventFilter self (QEvent.Build QEvent.KeyPress Qt.Key_F rep)) h
  = if _altPressed self then [LookAtSelection; FrameSelected] else [].
Proof.
  unfold calls_of, exec, eventFilter, on_KeyPress, bind, ret. simpl.
  destruct (_altPressed self); simpl.
  - by rewrite <- app_assoc, drop_app_length.
  - by rewrite drop_all.
Qed.

(** C6, as stated, fails on repeats: with Alt held, a press of F flagged as
    auto-repeat triggers the action again, so that holding Alt and F down
    (one press, then one repeat) runs it twice. *)
Lemma auto_repeat_press_F_frames_again :
  _altPressed holding_Alt = true
  ∧ QEvent.isAutoRepeat (repeat_press Qt.Key_F) = true
  ∧ calls_of (eventFilter holding_Alt (repeat_press Qt.Key_F)) persp_host
    = [LookAtSelection; FrameSelected]
  ∧ calls_of (eventFilter holding_Alt (repeat_press Qt.Key_F)) persp_host ≠ []
  ∧ calls_of (run_events (CameraControlFilter_init 0.1)
                [press Qt.Key_Alt; press Qt.Key_F; repeat_press Qt.Key_F])
             persp_host
    = [LookAtSelection; FrameSelected; LookAtSelection; FrameSelected].
Proof.
  assert (calls_of (eventFilter holding_Alt (repeat_press Qt.Key_F)) persp_host
          = [LookAtSelection; FrameSelected]) as Hcalls by reflexivity.
  split; [reflexivity|]. split; [reflexivity|]. split; [exact Hcalls|].
  split; [by rewrite Hcalls | reflexivity].
Qed.

(** ** Vectors *)

Lemma MVector_eq (u v : om.MVector) :
  om.x u = om.x v → om.y u = om.y v → om.z u = om.z v → u = v.
Proof. destruct u, v; simpl; congruence. Qed.

Ltac vec_eq := apply MVector_eq; simpl; try lra.

Lemma add_comm u v : om.add u v = om.add v u.
Proof. vec_eq. Qed.

Lemma add_assoc u v w : om.add (om.add u v) w = om.add u (om.add v w).
Proof. vec_eq. Qed.

Lemma add_zero_l v : om.add om.zero v = v.
Proof. vec_eq. Qed.

Lemma add_zero_r v : om.add v om.zero = v.
Proof. vec_eq. Qed.

Lemma length_zero : om.length om.zero = 0%R.
Proof.
  unfold om.length. simpl.
  replace (0 * 0 + 0 * 0 + 0 * 0)%R with 0%R by lra. apply sqrt_0.
Qed.

Lemma length_pos v : v ≠ om.zero → (0 < om.length v)%R.
Proof.
  intros Hv. unfold om.length. apply sqrt_lt_R0.
  destruct (Req_dec (om.x v) 0) as [Hx|Hx];
    [destruct (Req_dec (om.y v) 0) as [Hy|Hy];
      [destruct (Req_dec (om.z v) 0) as [Hz|Hz]|]|]; [|nra..].
  exfalso. apply Hv. by apply MVector_eq.
Qed.

Lemma normal_forward : om.normal (om.mk 0 0 (-1)) = om.mk 0 0 (-1).
Proof.
  unfold om.normal, om.length. simpl.
  replace (0 * 0 + 0 * 0 + -1 * -1)%R with (1 * 1)%R by lra.
  rewrite sqrt_square by lra. rewrite Rinv_1. vec_eq.
Qed.

Lemma mul_matrix_identity v : om.mul_matrix v om.identity = v.
Proof. unfold om.mul_matrix, om.entry. vec_eq. Qed.

(** ** The sum over the held keys *)

Lemma foldl_key_vectors ks : ∀ acc,
  foldl (λ moveVector key, om.add moveVector (key_vector key)) acc ks
  = om.add acc (foldr (λ key, om.add (key_vector key)) om.zero ks).
Proof.
  induction ks as [|k ks IH]; intros acc; simpl.
  - by rewrite add_zero_r.
  - by rewrite IH, add_assoc.
Qed.

Lemma sum_key_vectors_foldr ks :
  sum_key_vectors ks = foldr (λ key, om.add (key_vector key)) om.zero ks.
Proof.
  unfold sum_key_vectors.
  change (λ moveVector key,
            om.add moveVector (default (om.mk 0 0 0) (KEY_VECTORS !! key)))
    with (λ moveVector key, om.add moveVector (key_vector key)).
  by rewrite foldl_key_vectors, add_zero_l.
Qed.

(** The order in which the loop visits the set does not matter. *)
Lemma sum_key_vectors_perm ks1 ks2 :
  ks1 ≡ₚ ks2 → sum_key_vectors ks1 = sum_key_vectors ks2.
Proof.
  rewrite !sum_key_vectors_foldr.
  induction 1 as [|k l1 l2 _ IH|k1 k2 l|l1 l2 l3 _ IH1 _ IH2]; simpl.
  - done.
  - by rewrite IH.
  - by rewrite <- !add_assoc, (add_comm (key_vector k1)).
  - by rewrite IH1.
Qed.

Lemma key_vector_cases key :
  key_vector key =
    if decide (key = Qt.Key_A) then om.mk (-1) 0 0
    else if decide (key = Qt.Key_D) then om.mk 1 0 0
    else if decide (key = Qt.Key_W) then om.mk 0 0 (-1)
    else if decide (key = Qt.Key_S) then om.mk 0 0 1
    else if decide (key = Qt.Key_E) then om.mk 0 1 0
    else if decide (key = Qt.Key_Q) then om.mk 0 (-1) 0
    else om.mk 0 0 0.
Proof.
  unfold key_vector, KEY_VECTORS, KEY_VECTORS_items. simpl.
  rewrite !lookup_insert, lookup_empty.
  repeat case_decide; simplify_eq; done.
Qed.

Lemma held_insert k x (X : gset Z) :
  held k ({[x]} ∪ X) = if decide (k = x) then 1%R else held k X.
Proof.
  unfold held. case_decide as Hk.
  - rewrite bool_decide_eq_true_2; [done | set_solver].
  - rewrite (bool_decide_ext (k ∈ {[x]} ∪ X) (k ∈ X)); [done|].
    rewrite elem_of_union, elem_of_singleton. tauto.
Qed.

Lemma held_notin x (X : gset Z) : x ∉ X → held x X = 0%R.
Proof. intros Hx. unfold held. by rewrite bool_decide_eq_false_2. Qed.

Lemma held_empty k : held k ∅ = 0%R.
Proof. apply held_notin. set_solver. Qed.

Lemma composite_empty : composite ∅ = om.zero.
Proof. unfold composite. rewrite !held_empty. vec_eq. Qed.

Lemma composite_insert x (X : gset Z) :
  x ∉ X → composite ({[x]} ∪ X) = om.add (key_vector x) (composite X).
Proof.
  intros Hx. rewrite key_vector_cases. unfold composite.
  rewrite !held_insert.
  repeat case_decide; simplify_eq; rewrite ?(held_notin _ _ Hx); vec_eq.
Qed.

Lemma sum_key_vectors_elements (ks : gset Z) :
  sum_key_vectors (elements ks) = composite ks.
Proof.
  rewrite sum_key_vectors_foldr.
  apply (set_fold_ind_L (λ r X, r = composite X)
           (λ key, om.add (key_vector key)) om.zero).
  - by rewrite composite_empty.
  - intros x X r Hx ->. by rewrite composite_insert.
Qed.

Lemma held_direction_sum_composite ks : held_direction_sum ks = composite ks.
Proof.
  unfold held_direction_sum, composite, held. simpl.
  repeat case_bool_decide; vec_eq.
Qed.

Lemma held_direction_sum_W : held_direction_sum {[Qt.Key_W]} = om.mk 0 0 (-1).
Proof.
  rewrite held_direction_sum_composite. unfold composite.
  rewrite <- (union_empty_r_L {[Qt.Key_W]}), !held_insert, !held_empty.
  vec_eq.
Qed.

(** Left and right cancel. *)
Lemma held_direction_sum_A_D :
  held_direction_sum ({[Qt.Key_D]} ∪ ({[Qt.Key_A]} ∪ ∅)) = om.zero.
Proof.
  rewrite held_direction_sum_composite. unfold composite.
  rewrite !held_insert, !held_empty. vec_eq.
Qed.

(** So do forward and backward. *)
Lemma held_direction_sum_W_S :
  held_direction_sum ({[Qt.Key_S]} ∪ ({[Qt.Key_W]} ∪ ∅)) = om.zero.
Proof.
  rewrite held_direction_sum_composite. unfold composite.
  rewrite !held_insert, !held_empty. vec_eq.
Qed.

(** ** The tick *)

Lemma moveCameraLoop_zero self h :
  held_direction_sum (_movingKeys self) = om.zero →
  moveCameraLoop self h = (tt, h).
Proof.
  intros Hz. unfold moveCameraLoop.
  destruct (negb _ || _); [done|].
  rewrite sum_key_vectors_elements, <- held_direction_sum_composite, Hz,
    length_zero.
  destruct (Rlt_dec 0 0); [lra | done].
Qed.

Lemma moveCameraLoop_nonzero self h :
  _altPressed self = true →
  held_direction_sum (_movingKeys self) ≠ om.zero →
  moveCameraLoop self h
  = moveCameraLocal self (om.normal (held_direction_sum (_movingKeys self)))
                    (moveStep self) h.
Proof.
  intros Halt Hnz. unfold moveCameraLoop. rewrite Halt. simpl.
  assert (is_empty (_movingKeys self) = false) as ->.
  { apply bool_decide_eq_false. intros He. apply Hnz.
    by rewrite He, held_direction_sum_composite, composite_empty. }
  rewrite sum_key_vectors_elements, <- held_direction_sum_composite.
  destruct (Rlt_dec _ _) as [|Hn]; [done|].
  destruct Hn. by apply length_pos.
Qed.

(** C3.  For every set of held keys, in whatever order the loop visits
    them, the accumulated vector is the sum of the table entries of the held
    keys.  When that sum is the zero vector the tick leaves the host exactly
    as it found it: nothing is written and no call is made.  Otherwise, with
    Alt down, the tick is [moveCameraLocal] along the normalised sum. *)
Theorem tick_direction_is_normalized_sum
    (self : CameraControlFilter) (h : Host) :
  let ks := _movingKeys self in
  (∀ order, order ≡ₚ elements ks →
            sum_key_vectors order = held_direction_sum ks)
  ∧ (held_direction_sum ks = om.zero → moveCameraLoop self h = (tt, h))
  ∧ (held_direction_sum ks ≠ om.zero → _altPressed self = true →
     moveCameraLoop self h
     = moveCameraLocal self (om.normal (held_direction_sum ks))
                       (moveStep self) h).
Proof.
  intros ks. split; [|split].
  - intros order Hp. rewrite (sum_key_vectors_perm _ _ Hp).
    by rewrite sum_key_vectors_elements, held_direction_sum_composite.
  - apply moveCameraLoop_zero.
  - intros. by apply moveCameraLoop_nonzero.
Qed.

(** A and D held together: the tick does nothing. *)
Lemma tick_direction_is_normalized_sum_witness :
  held_direction_sum (_movingKeys holding_A_D) = om.zero
  ∧ moveCameraLoop holding_A_D persp_host = (tt, persp_host).
Proof.
  split; [exact held_direction_sum_A_D|].
  exact (proj1 (proj2 (tick_direction_is_normalized_sum holding_A_D persp_host))
           held_direction_sum_A_D).
Defined.

Lemma moveCameraLocal_focused self localDir distance h panel :
  truthy (focusPanel h) = Some panel →
  panelType h panel = "modelPanel" →
  let cam := panelCamera h panel in
  let newCamPos :=
    tick_position (om.of_triple (translation h cam))
                  (om.of_triple (centerOfInterest h cam))
                  (attribute h (String.append cam ".worldMatrix"))
                  localDir distance in
  translation (exec (moveCameraLocal self localDir distance) h) cam
    = triple newCamPos
  ∧ calls_of (moveCameraLocal self localDir distance) h
    = [ getPanel_withFocus; getPanel_typeOf panel; modelEditor_camera panel;
        xform_query_translation cam; camera_worldCenterOfInterest cam;
        getAttr (String.append cam ".worldMatrix");
        xform_set_translation cam (triple newCamPos); refresh ].
Proof.
  intros Hp Hty cam newCamPos.
  unfold moveCameraLocal, exec, bind.
  unfold cmds.getPanel_withFocus at 1 2. simpl. rewrite Hp.
  unfold cmds.getPanel_typeOf. simpl. rewrite Hty. simpl.
  split.
  - by rewrite String.eqb_refl.
  - apply calls_of_extends. unfold exec, moveCameraLocal, bind.
    unfold cmds.getPanel_withFocus. simpl. rewrite Hp.
    unfold cmds.getPanel_typeOf. simpl. rewrite Hty. simpl.
    by rewrite <- !app_assoc.
Qed.

Lemma moveCameraLoop_W_scenario :
  translation (exec (moveCameraLoop holding_W) persp_host) "persp"
  = (0, 0, 9.9)%R.
Proof.
  assert (held_direction_sum (_movingKeys holding_W) = om.mk 0 0 (-1)) as Hsum
    by apply held_direction_sum_W.
  assert (exec (moveCameraLoop holding_W) persp_host
          = exec (moveCameraLocal holding_W (om.mk 0 0 (-1)) 0.1) persp_host)
    as ->.
  { unfold exec. rewrite moveCameraLoop_nonzero; [|done|].
    - by rewrite Hsum, normal_forward.
    - rewrite Hsum. intros [=]. lra. }
  destruct (moveCameraLocal_focused holding_W (om.mk 0 0 (-1)) 0.1
              persp_host "modelPanel4" eq_refl eq_refl) as [Hpos _].
  cbv zeta in Hpos.
  change (panelCamera persp_host "modelPanel4") with "persp" in Hpos.
  rewrite Hpos. unfold tick_position.
  cbn [persp_host translation centerOfInterest attribute om.of_triple].
  rewrite mul_matrix_identity, normal_forward.
  replace (om.sub (om.mk 0 0 0) (om.mk 0 0 10)) with (om.mk 0 0 (-10))
    by vec_eq.
  unfold om.length at 1. simpl.
  replace (0 * 0 + 0 * 0 + -10 * -10)%R with (10 * 10)%R by lra.
  rewrite sqrt_square by lra.
  unfold triple, MOVE_SCALE_FACTOR. simpl.
  f_equal; [f_equal|]; lra.
Qed.

(** C2.  When the focused panel is a model panel showing camera [cam] at
    [P], with centre of interest [C] and world matrix [M], a tick along the
    local direction [d] with step [step] writes
    [P + normalize(d * M) * (step * distance(C, P) * MOVE_SCALE_FACTOR)] as the
    new position of [cam], after the three queries, and then asks for a
    refresh.  In particular, with step 0.1, the camera at (0, 0, 10) looking
    at the origin with the identity as orientation and W held under Alt, the
    timer's callback moves the camera to (0, 0, 9.9). *)
Theorem tick_moves_camera_along_world_direction :
  (∀ (self : CameraControlFilter) (d : om.MVector) (step : R) (h : Host)
     (panel : string),
     truthy (focusPanel h) = Some panel →
     panelType h panel = "modelPanel" →
     let cam := panelCamera h panel in
     let P := om.of_triple (translation h cam) in
     let C := om.of_triple (centerOfInterest h cam) in
     let M := attribute h (String.append cam ".worldMatrix") in
     translation (exec (moveCameraLocal self d step) h) cam
       = triple (tick_position P C M d step)
     ∧ calls_of (moveCameraLocal self d step) h
       = [ getPanel_withFocus; getPanel_typeOf panel; modelEditor_camera panel;
           xform_query_translation cam; camera_worldCenterOfInterest cam;
           getAttr (String.append cam ".worldMatrix");
           xform_set_translation cam (triple (tick_position P C M d step));
           refresh ])
  ∧ (moveStep holding_W = 0.1%R
     ∧ _movingKeys holding_W = {[Qt.Key_W]}
     ∧ translation (exec (moveCameraLoop holding_W) persp_host) "persp"
       = (0, 0, 9.9)%R).
Proof.
  split.
  - intros self d step h panel Hp Hty. by apply moveCameraLocal_focused.
  - split; [reflexivity|]. split; [reflexivity|].
    apply moveCameraLoop_W_scenario.
Qed.

(** One tick forward in the perspective view. *)
Lemma tick_moves_camera_along_world_direction_witness :
  truthy (focusPanel persp_host) = Some "modelPanel4"
  ∧ panelType persp_host "modelPanel4" = "modelPanel"
  ∧ translation (exec (moveCameraLocal holding_W (om.mk 0 0 (-1)) 0.1)
                      persp_host) "persp"
    = triple (tick_position (om.mk 0 0 10) (om.mk 0 0 0) om.identity
                            (om.mk 0 0 (-1)) 0.1).
Proof.
  split; [reflexivity|]. split; [reflexivity|].
  exact (proj1 (proj1 tick_moves_camera_along_world_direction
                  holding_W (om.mk 0 0 (-1)) 0.1%R persp_host "modelPanel4"
                  eq_refl eq_refl)).
Defined.

Lemma moveCameraLocal_unfocused self localDir distance h :
  no_viewport_focused h →
  translation (exec (moveCameraLocal self localDir distance) h) = translation h
  ∧ Forall is_focus_check (calls_of (moveCameraLocal self localDir distance) h).
Proof.
  intros Hf.
  assert (truthy (focusPanel h) = None
          ∨ ∃ panel, truthy (focusPanel h) = Some panel
                     ∧ String.eqb (panelType h panel) "modelPanel" = false)
    as [Hn|(panel & Hp & Hty)].
  { destruct Hf as [->|[->|(panel & -> & Hty)]]; [by left..|].
    simpl. destruct (String.eqb panel "") eqn:He; [by left|].
    right. exists panel. split; [done|]. by apply String.eqb_neq. }
  - unfold calls_of, moveCameraLocal, exec, bind, cmds.getPanel_withFocus.
    simpl. rewrite Hn. simpl. split; [done|].
    rewrite drop_app_length. apply Forall_singleton. by left.
  - unfold calls_of, moveCameraLocal, exec, bind, cmds.getPanel_withFocus.
    simpl. rewrite Hp. unfold cmds.getPanel_typeOf. simpl. rewrite Hty. simpl.
    split; [done|].
    rewrite <- app_assoc, drop_app_length.
    apply Forall_cons. split; [by left|].
    apply Forall_singleton. right. by exists panel.
Qed.

(** C9.  When the host reports no focused panel, or a focused panel whose
    type is not [modelPanel], the tick returns normally having only asked
    what has the focus: camera positions are as before, and the calls made
    are at most [getPanel(withFocus)] and [getPanel(typeOf)], so nothing is
    queried or written on a camera and no refresh is requested.  This holds
    for [moveCameraLocal] in any direction and for the timer's callback. *)
Theorem tick_without_focused_viewport_is_noop
    (self : CameraControlFilter) (h : Host) :
  no_viewport_focused h →
  (∀ (localDir : om.MVector) (distance : R),
     result (moveCameraLocal self localDir distance) h = tt
     ∧ translation (exec (moveCameraLocal self localDir distance) h)
       = translation h
     ∧ Forall is_focus_check
              (calls_of (moveCameraLocal self localDir distance) h))
  ∧ (result (moveCameraLoop self) h = tt
     ∧ translation (exec (moveCameraLoop self) h) = translation h
     ∧ Forall is_focus_check (calls_of (moveCameraLoop self) h)).
Proof.
  intros Hf. split.
  - intros localDir distance. split; [by destruct (result _ _)|].
    by apply moveCameraLocal_unfocused.
  - split; [by destruct (result _ _)|].
    unfold calls_of, exec, moveCameraLoop.
    destruct (negb _ || _); [by rewrite drop_all|].
    destruct (Rlt_dec _ _); [|by rewrite drop_all].
    by apply moveCameraLocal_unfocused.
Qed.

(** W held under Alt while the outliner has the focus. *)
Lemma tick_without_focused_viewport_is_noop_witness :
  no_viewport_focused outliner_host
  ∧ translation (exec (moveCameraLoop holding_W) outliner_host)
    = translation outliner_host
  ∧ Forall is_focus_check (calls_of (moveCameraLoop holding_W) outliner_host).
Proof.
  assert (no_viewport_focused outliner_host) as Hf.
  { right. right. exists "outlinerPanel1". split; [reflexivity|].
    simpl. discriminate. }
  split; [exact Hf|].
  exact (proj2 (proj2 (tick_without_focused_viewport_is_noop
                         holding_W outliner_host Hf))).
Defined.

(** ** The panel *)

Lemma clamp_clamped_to v lo hi :
  (lo <= hi)%R → clamp v lo hi = clamped_to lo hi v.
Proof.
  intros Hle. unfold clamp, clamped_to, Rmax, Rmin.
  repeat destruct (Rle_dec _ _); repeat destruct (Rlt_dec _ _); lra.
Qed.

Lemma clamp_bounds v lo hi : (lo <= hi)%R → (lo <= clamp v lo hi <= hi)%R.
Proof.
  intros Hle. unfold clamp, Rmax, Rmin.
  repeat destruct (Rle_dec _ _); lra.
Qed.

Lemma STEP_MIN_le_STEP_MAX : (STEP_MIN <= STEP_MAX)%R.
Proof. unfold STEP_MIN, STEP_MAX. lra. Qed.

(** C7.  For every integer the slider may report, inside its range or
    not, the handler stores [val / 100] clamped to [[0.01, 0.20]] as the
    filter's [moveStep], which therefore lies in [[0.01, 0.20]]. *)
Theorem slider_stores_clamped_step (self : ViewportControlPanel) (val : Z) :
  let step := moveStep (cameraFilter (onStepSliderChanged self val)) in
  STEP_MIN = 0.01%R ∧ STEP_MAX = 0.20%R
  ∧ step = clamped_to 0.01 0.20 (IZR val / 100)
  ∧ (0.01 <= step <= 0.20)%R.
Proof.
  simpl. split; [reflexivity|]. split; [reflexivity|]. split.
  - rewrite clamp_clamped_to by apply STEP_MIN_le_STEP_MAX.
    unfold STEP_MIN, STEP_MAX. f_equal. lra.
  - apply (clamp_bounds _ _ _ STEP_MIN_le_STEP_MAX).
Qed.

(** C8.  Toggling with the same value twice in a row: after the first
    call [isInstalled] equals [checked]; the second call returns the same
    panel and the same host, log included, so it installs or removes nothing
    and makes no call at all.  This covers enable after enable and disable
    after disable. *)
Theorem toggle_twice_is_noop
    (self : ViewportControlPanel) (checked : bool) (h : Host) :
  let '(self1, h1) := onEnabledToggled self checked h in
  isInstalled self1 = checked
  ∧ onEnabledToggled self1 checked h1 = (self1, h1)
  ∧ calls_of (onEnabledToggled self1 checked) h1 = [].
Proof.
  unfold calls_of, exec.
  unfold onEnabledToggled, installCameraControls, uninstallCameraControls,
    bind, ret.
  destruct checked, (isInstalled self) eqn:Hi; simpl; rewrite ?Hi; simpl;
    rewrite ?drop_all; try done.
  destruct (bool_decide _); simpl; by rewrite drop_all.
Qed.

(** * Further properties of the module *)

(** ** What the filter keeps true under every signal *)

Lemma in_KEY_VECTORS_navigation key :
  in_KEY_VECTORS key = true ↔ key ∈ navigation_keys.
Proof.
  unfold in_KEY_VECTORS, navigation_keys, KEY_VECTORS, KEY_VECTORS_items.
  rewrite bool_decide_eq_true. simpl.
  rewrite !lookup_insert, lookup_empty.
  rewrite !elem_of_union, !elem_of_singleton.
  unfold is_Some.
  repeat case_decide; subst; split;
    [eauto 10 | intros _; eauto | eauto 10 | intros _; eauto
    | eauto 10 | intros _; eauto | eauto 10 | intros _; eauto
    | eauto 10 | intros _; eauto | eauto 10 | intros _; eauto
    | intros [? [=]] | intros Hin; intuition congruence ].
Qed.

Lemma insert_subseteq (k : Z) (ks X : gset Z) :
  k ∈ X → ks ⊆ X → {[k]} ∪ ks ⊆ X.
Proof.
  intros Hk Hks. apply union_subseteq. split; [|done].
  by apply singleton_subseteq_l.
Qed.

Lemma remove_subseteq (k : Z) (ks X : gset Z) : ks ⊆ X → ks ∖ {[k]} ⊆ X.
Proof. intros Hks. etrans; [apply subseteq_difference_l|]; done. Qed.

Lemma filter_inv_init : filter_inv (CameraControlFilter_init 0.1).
Proof.
  split; [apply timer_inv_init|]. split; [apply empty_subseteq|].
  split; [|reflexivity]. unfold STEP_MIN, STEP_MAX. simpl. lra.
Qed.

Lemma filter_inv_eventFilter self ev h :
  filter_inv self → filter_inv (snd (result (eventFilter self ev) h)).
Proof.
  intros (Ht & Hk & Hs & Hi).
  split; [by apply timer_inv_eventFilter|]. clear Ht.
  cut (_movingKeys (snd (result (eventFilter self ev) h)) ⊆ navigation_keys
       ∧ moveStep (snd (result (eventFilter self ev) h)) = moveStep self
       ∧ QTimer.interval (moveTimer (snd (result (eventFilter self ev) h)))
         = QTimer.interval (moveTimer self)).
  { intros (? & -> & ->). done. }
  clear Hs Hi.
  rewrite eventFilter_result. simpl.
  destruct ev as [ty key rep]. destruct ty; simpl; [| |done].
  - rewrite on_KeyPress_result. simpl. unfold _startMovementTimer.
    destruct (key =? Qt.Key_Alt)%Z; [done|].
    destruct (_altPressed self && (key =? Qt.Key_F)%Z); [done|].
    destruct (_altPressed self); simpl; [|done].
    destruct (in_KEY_VECTORS key) eqn:Hnav; simpl; [|done].
    apply in_KEY_VECTORS_navigation in Hnav.
    destruct rep; simpl; [done|].
    destruct (is_empty _ && _); simpl; (split; [by apply insert_subseteq|done]).
  - unfold on_KeyRelease, _stopMovementTimer.
    destruct self as [ms ks alt [iv act]]; simpl in *.
    destruct (key =? Qt.Key_Alt)%Z; simpl.
    + rewrite bool_decide_eq_false_2 by apply not_elem_of_empty.
      destruct rep, act; simpl; (split; [apply empty_subseteq|done]).
    + destruct rep; simpl.
      * destruct (negb alt || is_empty ks), act; simpl; done.
      * case_bool_decide; simpl;
          destruct (negb alt || is_empty _), act; simpl;
          (split; [by auto using remove_subseteq|done]).
Qed.

Lemma run_cons self a actions h :
  run self (a :: actions) h
  = run (result (dispatch self a) h) actions (exec (dispatch self a) h).
Proof.
  simpl. unfold bind, result, exec. by destruct (dispatch self a h).
Qed.

Lemma dispatch_KeyEvent self event h :
  dispatch self (KeyEvent event) h
  = if filterInstalled h
    then (set_cameraFilter
            (snd (result (eventFilter (cameraFilter self) event) h)) self,
          exec (eventFilter (cameraFilter self) event) h)
    else (self, h).
Proof.
  simpl. destruct (filterInstalled h); [|done].
  unfold bind, ret, result, exec. by destruct (eventFilter _ _ h).
Qed.

Lemma onEnabledToggled_cameraFilter self checked h :
  cameraFilter (result (onEnabledToggled self checked) h) = cameraFilter self.
Proof.
  unfold onEnabledToggled, installCameraControls, uninstallCameraControls,
    result, bind, ret.
  destruct (checked && negb (isInstalled self)); [done|].
  destruct (negb checked && isInstalled self); [|done].
  simpl. by destruct (bool_decide _).
Qed.

Lemma dispatch_cameraFilter self a h :
  cameraFilter (result (dispatch self a) h) =
  match a with
  | KeyEvent event =>
      if filterInstalled h
      then snd (result (eventFilter (cameraFilter self) event) h)
      else cameraFilter self
  | ValueChanged val =>
      set_moveStep (clamp (IZR val / 100.0) STEP_MIN STEP_MAX) (cameraFilter self)
  | _ => cameraFilter self
  end.
Proof.
  destruct a as [event| |checked|val].
  - unfold result. rewrite dispatch_KeyEvent. by destruct (filterInstalled h).
  - unfold result. simpl. destruct (QTimer.isActive _); [|done].
    unfold bind, ret. by destruct (moveCameraLoop _ h).
  - apply onEnabledToggled_cameraFilter.
  - done.
Qed.

Lemma filter_inv_dispatch self a h :
  filter_inv (cameraFilter self) →
  filter_inv (cameraFilter (result (dispatch self a) h)).
Proof.
  intros Hinv. rewrite dispatch_cameraFilter.
  destruct a as [event| |checked|val]; try done.
  - destruct (filterInstalled h); [|done]. by apply filter_inv_eventFilter.
  - destruct Hinv as (Ht & Hk & Hs & Hi).
    split; [done|]. split; [done|]. split; [|done]. simpl.
    apply clamp_bounds, STEP_MIN_le_STEP_MAX.
Qed.

Lemma filter_inv_run actions : ∀ self h,
  filter_inv (cameraFilter self) →
  filter_inv (cameraFilter (result (run self actions) h)).
Proof.
  induction actions as [|a actions IH]; intros self h Hinv; [done|].
  unfold result. rewrite run_cons. apply IH. by apply filter_inv_dispatch.
Qed.

(** X1.  Start from the panel as [__init__] builds it and let Qt deliver
    any sequence of key events (seen only while the filter is installed),
    timer ticks (only while the timer is active), toggles and slider
    changes.  At every point the timer is active exactly when Alt is down
    and a key is held, every held key is one of the six keys of
    [KEY_VECTORS], and the timer's interval is still [DEFAULT_TIMER_MS]. *)
Theorem module_keeps_timer_and_keys_consistent
    (actions : list Action) (h : Host) :
  let self := cameraFilter (result (run ViewportControlPanel_init actions) h) in
  (QTimer.isActive (moveTimer self) = true
   ↔ _altPressed self = true ∧ _movingKeys self ≠ ∅)
  ∧ _movingKeys self ⊆ navigation_keys
  ∧ QTimer.interval (moveTimer self) = DEFAULT_TIMER_MS.
Proof.
  intros self.
  destruct (filter_inv_run actions ViewportControlPanel_init h filter_inv_init)
    as (Ht & Hk & _ & Hi).
  fold self in Ht, Hk, Hi. split; [|done].
  rewrite (timer_inv_spec _ Ht), andb_true_iff, negb_true_iff.
  by rewrite is_empty_false.
Qed.

(** X2.  Under the same sequences of signals the filter's [moveStep]
    never leaves [[0.01, 0.20]]: it starts at 0.1 and only the slider's
    handler writes it, clamped. *)
Theorem module_keeps_moveStep_in_range (actions : list Action) (h : Host) :
  let self := cameraFilter (result (run ViewportControlPanel_init actions) h) in
  (0.01 <= moveStep self <= 0.20)%R.
Proof.
  intros self.
  by destruct (filter_inv_run actions ViewportControlPanel_init h filter_inv_init)
    as (_ & _ & Hs & _).
Qed.

(** X3.  Whenever, after any such sequence, the timer is not active, a
    tick that still fires (the timeout was already queued) returns at once:
    the host is left exactly as it was, with no call made. *)
Theorem tick_with_stopped_timer_is_noop
    (actions : list Action) (h h' : Host) :
  let self := cameraFilter (result (run ViewportControlPanel_init actions) h) in
  QTimer.isActive (moveTimer self) = false →
  moveCameraLoop self h' = (tt, h').
Proof.
  intros self Hact.
  destruct (filter_inv_run actions ViewportControlPanel_init h filter_inv_init)
    as (Ht & _). fold self in Ht.
  rewrite (timer_inv_spec _ Ht) in Hact.
  unfold moveCameraLoop.
  by destruct (_altPressed self), (is_empty (_movingKeys self)).
Qed.

(** Alt went down and came up again: the timer is stopped. *)
Lemma tick_with_stopped_timer_is_noop_witness :
  QTimer.isActive
    (moveTimer (cameraFilter
       (result (run ViewportControlPanel_init
                  [Toggled true; KeyEvent (press Qt.Key_Alt);
                   KeyEvent (press Qt.Key_W); KeyEvent (release Qt.Key_Alt)])
               fresh_host))) = false
  ∧ moveCameraLoop
      (cameraFilter
         (result (run ViewportControlPanel_init
                    [Toggled true; KeyEvent (press Qt.Key_Alt);
                     KeyEvent (press Qt.Key_W); KeyEvent (release Qt.Key_Alt)])
                 fresh_host)) persp_host
    = (tt, persp_host).
Proof.
  split; [reflexivity|].
  exact (tick_with_stopped_timer_is_noop
           [Toggled true; KeyEvent (press Qt.Key_Alt);
            KeyEvent (press Qt.Key_W); KeyEvent (release Qt.Key_Alt)]
           fresh_host persp_host eq_refl).
Defined.

(** ** One event at a time *)

Lemma eventFilter_idle self event h :
  idle self → ¬ is_Alt_press event →
  eventFilter self event h = ((false, self), h).
Proof.
  intros (Halt & Hks & Hact) Hnot.
  destruct self as [ms ks alt [iv act]], event as [ty key rep].
  simpl in *. subst alt ks act.
  unfold eventFilter, on_KeyPress, on_KeyRelease, _stopMovementTimer, bind, ret.
  destruct ty; simpl; [| |done].
  - destruct (Z.eqb_spec key Qt.Key_Alt) as [->|Hk]; [|done].
    by destruct Hnot.
  - destruct (key =? Qt.Key_Alt)%Z; simpl;
      rewrite ?bool_decide_eq_false_2 by set_solver; by destruct rep.
Qed.

(** X4.  While Alt has not been pressed nothing happens: from a filter
    with Alt up, no key held and the timer stopped, any list of events that
    contains no press of Alt (presses, repeats and releases of W, A, S, D,
    Q, E, F or any other key, releases of Alt) leaves the filter and the
    host exactly as they were, log included. *)
Theorem keys_are_inert_without_Alt
    (self : CameraControlFilter) (evs : list QEvent.t) (h : Host) :
  idle self →
  Forall (λ event, ¬ is_Alt_press event) evs →
  run_events self evs h = (self, h).
Proof.
  intros Hidle Hevs. induction Hevs as [|event evs Hnot _ IH]; [done|].
  rewrite run_events_cons. unfold result, exec.
  by rewrite (eventFilter_idle _ _ _ Hidle Hnot).
Qed.

(** W and F typed without Alt. *)
Lemma keys_are_inert_without_Alt_witness :
  idle (CameraControlFilter_init 0.1)
  ∧ Forall (λ event, ¬ is_Alt_press event)
           [press Qt.Key_W; repeat_press Qt.Key_W; press Qt.Key_F;
            release Qt.Key_W; release Qt.Key_Alt]
  ∧ run_events (CameraControlFilter_init 0.1)
               [press Qt.Key_W; repeat_press Qt.Key_W; press Qt.Key_F;
                release Qt.Key_W; release Qt.Key_Alt] persp_host
    = (CameraControlFilter_init 0.1, persp_host).
Proof.
  assert (idle (CameraControlFilter_init 0.1)) as Hidle by (repeat split).
  assert (Forall (λ event, ¬ is_Alt_press event)
           [press Qt.Key_W; repeat_press Qt.Key_W; press Qt.Key_F;
            release Qt.Key_W; release Qt.Key_Alt]) as Hevs.
  { repeat (apply Forall_cons; split; [intros [Hty Hkey]; discriminate|]).
    apply Forall_nil_2. }
  split; [exact Hidle|]. split; [exact Hevs|].
  exact (keys_are_inert_without_Alt _ _ persp_host Hidle Hevs).
Defined.

(** X5.  A key enters [_movingKeys] in one way only: by a press of that
    very key that is not an auto-repeat, made while [_altPressed] is set,
    the key being one of the six of [KEY_VECTORS]. *)
Theorem key_added_only_by_fresh_press_under_Alt
    (self : CameraControlFilter) (event : QEvent.t) (h : Host) (key : Z) :
  key ∈ _movingKeys (snd (result (eventFilter self event) h)) →
  key ∉ _movingKeys self →
  QEvent.type event = QEvent.KeyPress
  ∧ QEvent.key event = key
  ∧ QEvent.isAutoRepeat event = false
  ∧ _altPressed self = true
  ∧ key ∈ navigation_keys.
Proof.
  rewrite eventFilter_result. simpl.
  destruct event as [ty k rep]. destruct ty; simpl; [| |done].
  - rewrite on_KeyPress_result. unfold _startMovementTimer.
    destruct self as [ms ks alt [iv act]]; simpl.
    destruct (k =? Qt.Key_Alt)%Z; [done|].
    destruct alt; simpl; [|done].
    destruct (k =? Qt.Key_F)%Z; [done|].
    destruct (in_KEY_VECTORS k) eqn:Hnav; simpl; [|done].
    destruct rep; simpl; [done|].
    assert (k ∈ navigation_keys) by by apply in_KEY_VECTORS_navigation.
    destruct (is_empty ks && negb act); simpl;
      rewrite elem_of_union, elem_of_singleton;
      (intros [->|Hin] Hnot; [done|by destruct Hnot]).
  - unfold on_KeyRelease, _stopMovementTimer.
    destruct self as [ms ks alt [iv act]]; simpl.
    destruct (k =? Qt.Key_Alt)%Z; simpl.
    + rewrite bool_decide_eq_false_2 by apply not_elem_of_empty.
      intros Hin. exfalso. revert Hin.
      destruct rep, act; simpl; apply not_elem_of_empty.
    + destruct rep; simpl.
      * by destruct (negb alt || is_empty ks), act.
      * case_bool_decide; simpl;
          destruct (negb alt || is_empty _), act; simpl;
          rewrite ?elem_of_difference; tauto.
Qed.

(** Alt is down and W goes down. *)
Lemma key_added_only_by_fresh_press_under_Alt_witness :
  Qt.Key_W ∈ _movingKeys
               (snd (result (eventFilter holding_Alt (press Qt.Key_W)) persp_host))
  ∧ (Qt.Key_W ∉ _movingKeys holding_Alt)
  ∧ QEvent.isAutoRepeat (press Qt.Key_W) = false
  ∧ _altPressed holding_Alt = true.
Proof.
  assert (Qt.Key_W ∈ _movingKeys
            (snd (result (eventFilter holding_Alt (press Qt.Key_W)) persp_host)))
    as Hin.
  { change (Qt.Key_W ∈ ({[Qt.Key_W]} ∪ ∅ : gset Z)).
    apply elem_of_union_l, elem_of_singleton. reflexivity. }
  assert (Qt.Key_W ∉ _movingKeys holding_Alt) as Hout
    by apply not_elem_of_empty.
  split; [exact Hin|]. split; [exact Hout|].
  pose proof (key_added_only_by_fresh_press_under_Alt
                holding_Alt (press Qt.Key_W) persp_host Qt.Key_W Hin Hout)
    as (_ & _ & Hrep & Halt & _).
  split; [exact Hrep | exact Halt].
Defined.

(** The release branch in closed form: removing a key that is not held and
    stopping a stopped timer change nothing. *)
Lemma on_KeyRelease_closed self event :
  on_KeyRelease self event =
  let key := QEvent.key event in
  let alt := if (key =? Qt.Key_Alt)%Z then false else _altPressed self in
  let ks := if (key =? Qt.Key_Alt)%Z then ∅ else _movingKeys self in
  let ks := if QEvent.isAutoRepeat event then ks else ks ∖ {[key]} in
  {| moveStep := moveStep self; _movingKeys := ks; _altPressed := alt;
     moveTimer :=
       {| QTimer.interval := QTimer.interval (moveTimer self);
          QTimer.isActive := if negb alt || is_empty ks then false
                             else QTimer.isActive (moveTimer self) |} |}.
Proof.
  unfold on_KeyRelease, _stopMovementTimer.
  destruct self as [ms ks alt [iv act]], event as [ty key rep]; simpl.
  assert (∀ X : gset Z, key ∉ X → X ∖ {[key]} = X) as Hout.
  { intros X HX. apply set_eq. intros k.
    rewrite elem_of_difference, elem_of_singleton.
    split; [tauto|]. intros Hk. split; [done|]. by intros ->. }
  destruct (key =? Qt.Key_Alt)%Z; simpl.
  - rewrite bool_decide_eq_false_2 by set_solver.
    rewrite (Hout ∅) by set_solver.
    by destruct rep, act.
  - destruct rep; simpl.
    + by destruct (negb alt || is_empty ks), act.
    + case_bool_decide as Hin; simpl.
      * by destruct (negb alt || is_empty _), act.
      * rewrite (Hout ks Hin). by destruct (negb alt || is_empty _), act.
Qed.

(** X6.  Under Alt, pressing a navigation key that is not held and then
    releasing it brings the filter back to exactly what it was: in between
    the key is held and the timer runs; afterwards the set, the flag and
    the timer are as before. *)
Theorem press_then_release_restores_filter
    (self : CameraControlFilter) (key : Z) (h h' : Host) :
  timer_inv self →
  _altPressed self = true →
  key ∈ navigation_keys →
  key ∉ _movingKeys self →
  let pressed := snd (result (eventFilter self (press key)) h) in
  _movingKeys pressed = {[key]} ∪ _movingKeys self
  ∧ QTimer.isActive (moveTimer pressed) = true
  ∧ snd (result (eventFilter pressed (release key)) h') = self.
Proof.
  intros [Ht Ha] Halt Hnav Hnot pressed. subst pressed.
  rewrite !eventFilter_result. cbn [snd QEvent.type press release].
  rewrite on_KeyPress_result, on_KeyRelease_closed.
  unfold _startMovementTimer.
  apply in_KEY_VECTORS_navigation in Hnav.
  assert (key ≠ Qt.Key_Alt) as Hk by (intros ->; done).
  assert (key ≠ Qt.Key_F) as Hf by (intros ->; done).
  apply Z.eqb_neq in Hk, Hf.
  destruct self as [ms ks alt [iv act]].
  cbn [_altPressed _movingKeys moveTimer QTimer.isActive] in Ht, Ha, Halt, Hnot.
  subst alt act.
  cbn -[difference union Z.eqb in_KEY_VECTORS is_empty].
  rewrite Hk, Hf, Hnav.
  cbn -[difference union Z.eqb in_KEY_VECTORS is_empty].
  assert (({[key]} ∪ ks) ∖ {[key]} = ks) as Hdiff.
  { apply set_eq. intros k.
    rewrite elem_of_difference, elem_of_union, elem_of_singleton.
    split; [tauto|]. intros Hin. split; [tauto|]. by intros ->. }
  destruct (is_empty ks) eqn:He;
    cbn -[difference union Z.eqb in_KEY_VECTORS is_empty];
    rewrite ?Hk; cbn -[difference union Z.eqb in_KEY_VECTORS is_empty];
    rewrite Hdiff, He; done.
Qed.

(** W pressed and released while Alt is down. *)
Lemma press_then_release_restores_filter_witness :
  timer_inv holding_Alt
  ∧ _altPressed holding_Alt = true
  ∧ Qt.Key_W ∈ navigation_keys
  ∧ (Qt.Key_W ∉ _movingKeys holding_Alt)
  ∧ snd (result (eventFilter
                   (snd (result (eventFilter holding_Alt (press Qt.Key_W))
                                persp_host))
                   (release Qt.Key_W)) persp_host)
    = holding_Alt.
Proof.
  assert (timer_inv holding_Alt) as Hinv by (split; reflexivity).
  assert (Qt.Key_W ∈ navigation_keys) as Hnav
    by (apply in_KEY_VECTORS_navigation; reflexivity).
  assert (Qt.Key_W ∉ _movingKeys holding_Alt) as Hout
    by apply not_elem_of_empty.
  split; [exact Hinv|]. split; [reflexivity|].
  split; [exact Hnav|]. split; [exact Hout|].
  exact (proj2 (proj2 (press_then_release_restores_filter
                         holding_Alt Qt.Key_W persp_host persp_host
                         Hinv eq_refl Hnav Hout))).
Defined.

(** X7.  Delivering the same event twice in a row leaves the filter as the
    first delivery left it, for every event and every state: a duplicated
    press or release changes nothing more. *)
Theorem eventFilter_twice_is_once_on_filter
    (self : CameraControlFilter) (event : QEvent.t) (h h' : Host) :
  let self' := snd (result (eventFilter self event) h) in
  snd (result (eventFilter self' event) h') = self'.
Proof.
  intros self'. subst self'. rewrite !eventFilter_result. simpl.
  destruct event as [ty key rep]. destruct ty; simpl; [| |done].
  - rewrite !on_KeyPress_result. unfold _startMovementTimer.
    destruct self as [ms ks alt [iv act]]; simpl.
    destruct (key =? Qt.Key_Alt)%Z eqn:Hk; simpl; [by rewrite ?Hk|].
    destruct alt; simpl; [|by rewrite ?Hk].
    destruct (key =? Qt.Key_F)%Z eqn:Hf; simpl; [by rewrite ?Hk, ?Hf|].
    destruct (in_KEY_VECTORS key) eqn:Hnav; simpl; [|by rewrite ?Hk, ?Hf, ?Hnav].
    destruct rep; simpl; [by rewrite ?Hk, ?Hf, ?Hnav|].
    destruct (is_empty ks && negb act); simpl; rewrite ?Hk, ?Hf, ?Hnav; simpl;
      rewrite is_empty_insert; simpl;
      by rewrite (assoc_L (∪)), (idemp_L (∪)).
  - rewrite !on_KeyRelease_closed.
    destruct self as [ms ks alt [iv act]]. cbn -[difference].
    destruct (key =? Qt.Key_Alt)%Z, rep; cbn -[difference];
      rewrite ?difference_twice_L; try done;
      by destruct (negb alt || is_empty _).
Qed.

Lemma eventFilter_calls self event h :
  calls_of (eventFilter self event) h
  = match QEvent.type event with
    | QEvent.KeyPress =>
        if _altPressed self && (QEvent.key event =? Qt.Key_F)%Z
        then [LookAtSelection; FrameSelected] else []
    | _ => []
    end.
Proof.
  unfold calls_of, exec, eventFilter, on_KeyPress, bind, ret.
  destruct event as [ty key rep]. destruct ty; simpl.
  - destruct (Z.eqb_spec key Qt.Key_Alt) as [->|Hk]; simpl.
    { rewrite andb_false_r. by rewrite drop_all. }
    destruct (_altPressed self && (key =? Qt.Key_F)%Z); simpl.
    + by rewrite <- app_assoc, drop_app_length.
    + destruct (_ && _ && _); simpl; by rewrite drop_all.
  - by rewrite drop_all.
  - by rewrite drop_all.
Qed.

(** X8.  The filter calls into Maya only for Alt+F: an event makes a call
    if and only if it is a press of F while [_altPressed] is set, and the
    only calls it ever makes are [LookAtSelection] and [FrameSelected]; it
    never writes [moveStep] or the timer's interval. *)
Theorem eventFilter_calls_host_only_for_frame_key
    (self : CameraControlFilter) (event : QEvent.t) (h : Host) :
  let self' := snd (result (eventFilter self event) h) in
  (calls_of (eventFilter self event) h ≠ []
   ↔ QEvent.type event = QEvent.KeyPress ∧ QEvent.key event = Qt.Key_F
     ∧ _altPressed self = true)
  ∧ (∀ c, c ∈ calls_of (eventFilter self event) h →
          c = LookAtSelection ∨ c = FrameSelected)
  ∧ moveStep self' = moveStep self
  ∧ QTimer.interval (moveTimer self') = QTimer.interval (moveTimer self).
Proof.
  intros self'. subst self'. rewrite eventFilter_calls. split; [|split].
  - destruct (QEvent.type event) eqn:Hty;
      [|split; [done|by intros (? & _)]..].
    destruct (_altPressed self); simpl; [|split; [done|by intros (_ & _ & ?)]].
    destruct (Z.eqb_spec (QEvent.key event) Qt.Key_F) as [->|Hk]; [done|].
    split; [done|]. by intros (_ & ? & _).
  - intros c. destruct (QEvent.type event); [|by rewrite elem_of_nil..].
    destruct (_ && _).
    + rewrite !elem_of_cons, elem_of_nil. tauto.
    + by rewrite elem_of_nil.
  - rewrite eventFilter_result. simpl.
    destruct event as [ty key rep]. destruct ty; simpl; [| |done].
    + rewrite on_KeyPress_result. simpl. unfold _startMovementTimer.
      destruct (key =? Qt.Key_Alt)%Z; [done|].
      destruct (_altPressed self && (key =? Qt.Key_F)%Z); [done|].
      destruct (_ && _ && _); [|done].
      by destruct (is_empty _ && _).
    + unfold on_KeyRelease, _stopMovementTimer.
      destruct self as [ms ks alt [iv act]]; simpl.
      destruct (key =? Qt.Key_Alt)%Z; simpl.
      * rewrite bool_decide_eq_false_2 by apply not_elem_of_empty.
        by destruct rep, act.
      * destruct rep; simpl.
        -- by destruct (negb alt || is_empty ks), act.
        -- case_bool_decide; simpl; by destruct (negb alt || is_empty _), act.
Qed.

(** ** More about the tick *)

(** X9.  Whatever the order in which the loop visits the held keys, the
    vector it accumulates has x = [D held] - [A held], y = [E held] -
    [Q held] and z = [S held] - [W held] (each bracket 1 or 0): the two keys
    of an axis cancel whatever else is held, and keys outside the table add
    nothing. *)
Theorem summed_vector_by_axis (ks : gset Z) (order : list Z) :
  order ≡ₚ elements ks →
  om.x (sum_key_vectors order) = (held Qt.Key_D ks - held Qt.Key_A ks)%R
  ∧ om.y (sum_key_vectors order) = (held Qt.Key_E ks - held Qt.Key_Q ks)%R
  ∧ om.z (sum_key_vectors order) = (held Qt.Key_S ks - held Qt.Key_W ks)%R.
Proof.
  intros Hp. rewrite (sum_key_vectors_perm _ _ Hp), sum_key_vectors_elements.
  done.
Qed.


(** A, D and W held: x cancels. *)
Lemma summed_vector_by_axis_witness :
  [Qt.Key_A; Qt.Key_D; Qt.Key_W]
    ≡ₚ elements ({[Qt.Key_A; Qt.Key_D; Qt.Key_W]} : gset Z)
  ∧ om.x (sum_key_vectors [Qt.Key_A; Qt.Key_D; Qt.Key_W])
    = (held Qt.Key_D {[Qt.Key_A; Qt.Key_D; Qt.Key_W]}
       - held Qt.Key_A {[Qt.Key_A; Qt.Key_D; Qt.Key_W]})%R.
Proof.
  assert ([Qt.Key_A; Qt.Key_D; Qt.Key_W]
            ≡ₚ elements ({[Qt.Key_A; Qt.Key_D; Qt.Key_W]} : gset Z)) as Hp.
  { apply NoDup_Permutation.
    - apply (bool_decide_unpack _). reflexivity.
    - apply NoDup_elements.
    - intros k. rewrite elem_of_elements, !elem_of_union, !elem_of_singleton.
      rewrite !elem_of_cons, elem_of_nil. tauto. }
  split; [exact Hp|].
  exact (proj1 (summed_vector_by_axis _ _ Hp)).
Defined.

Lemma length_nonneg v : (0 <= om.length v)%R.
Proof. apply sqrt_pos. Qed.

Lemma length_scale v s : om.length (om.scale v s) = (Rabs s * om.length v)%R.
Proof.
  unfold om.length. simpl.
  replace (om.x v * s * (om.x v * s) + om.y v * s * (om.y v * s)
           + om.z v * s * (om.z v * s))%R
    with (Rsqr s * (om.x v * om.x v + om.y v * om.y v + om.z v * om.z v))%R
    by (unfold Rsqr; lra).
  rewrite sqrt_mult; [|apply Rle_0_sqr|nra].
  by rewrite sqrt_Rsqr_abs.
Qed.

Lemma length_normal v : v ≠ om.zero → om.length (om.normal v) = 1%R.
Proof.
  intros Hv. pose proof (length_pos v Hv) as Hpos.
  unfold om.normal. rewrite length_scale.
  rewrite Rabs_right by (left; by apply Rinv_0_lt_compat).
  field. lra.
Qed.

Lemma of_triple_triple v : om.of_triple (triple v) = v.
Proof. by destruct v. Qed.

Lemma triple_of_triple t : triple (om.of_triple t) = t.
Proof. by destruct t as [[a b] c]. Qed.

Lemma tick_position_displacement P C M d step :
  om.mul_matrix d M ≠ om.zero → (0 <= step)%R →
  om.length (om.sub (tick_position P C M d step) P)
  = (step * om.length (om.sub C P) * MOVE_SCALE_FACTOR)%R.
Proof.
  intros Hd Hs. unfold tick_position.
  replace (om.sub (om.add P _) P)
    with (om.scale (om.normal (om.mul_matrix d M))
                   (step * om.length (om.sub C P) * MOVE_SCALE_FACTOR))
    by vec_eq.
  rewrite length_scale, (length_normal _ Hd), Rmult_1_r.
  apply Rabs_right. pose proof (length_nonneg (om.sub C P)).
  unfold MOVE_SCALE_FACTOR. nra.
Qed.

(** X10.  On a focused model panel, for a step that is not negative and
    a direction the camera matrix does not send to zero, one tick moves the
    camera by exactly [step * distance(C, P) * MOVE_SCALE_FACTOR], whatever
    the direction: diagonal movement is no faster than movement along an
    axis.  (Floats idealised as reals.) *)
Theorem tick_moves_camera_by_scaled_step
    (self : CameraControlFilter) (d : om.MVector) (step : R) (h : Host)
    (panel : string) :
  truthy (focusPanel h) = Some panel →
  panelType h panel = "modelPanel" →
  let cam := panelCamera h panel in
  let P := om.of_triple (translation h cam) in
  let C := om.of_triple (centerOfInterest h cam) in
  let P' := om.of_triple (translation (exec (moveCameraLocal self d step) h) cam) in
  om.mul_matrix d (attribute h (String.append cam ".worldMatrix")) ≠ om.zero →
  (0 <= step)%R →
  om.length (om.sub P' P)
  = (step * om.length (om.sub C P) * MOVE_SCALE_FACTOR)%R.
Proof.
  intros Hp Hty cam P C P' Hd Hs. subst P'.
  destruct (moveCameraLocal_focused self d step h panel Hp Hty) as [Hpos _].
  cbv zeta in Hpos. fold cam in Hpos. rewrite Hpos, of_triple_triple.
  by apply tick_position_displacement.
Qed.


Lemma forward_not_zero :
  om.mul_matrix (om.mk 0 0 (-1)) om.identity ≠ om.zero.
Proof. rewrite mul_matrix_identity. intros [=]. lra. Qed.

(** One tick forward in the perspective view. *)
Lemma tick_moves_camera_by_scaled_step_witness :
  truthy (focusPanel persp_host) = Some "modelPanel4"
  ∧ panelType persp_host "modelPanel4" = "modelPanel"
  ∧ om.mul_matrix (om.mk 0 0 (-1)) om.identity ≠ om.zero
  ∧ (0 <= 0.1)%R
  ∧ om.length
      (om.sub (om.of_triple
                 (translation (exec (moveCameraLocal holding_W (om.mk 0 0 (-1)) 0.1)
                                    persp_host) "persp"))
              (om.mk 0 0 10))
    = (0.1 * om.length (om.sub (om.mk 0 0 0) (om.mk 0 0 10))
       * MOVE_SCALE_FACTOR)%R.
Proof.
  assert (0 <= 0.1)%R as Hstep by lra.
  split; [reflexivity|]. split; [reflexivity|].
  split; [exact forward_not_zero|]. split; [exact Hstep|].
  exact (tick_moves_camera_by_scaled_step holding_W (om.mk 0 0 (-1)) 0.1
           persp_host "modelPanel4" eq_refl eq_refl forward_not_zero Hstep).
Defined.

(** X11.  After any slider change, a tick with the stored step moves the
    camera of the focused model panel by at least 0.1% and at most 2% of
    its distance to the centre of interest (direction not sent to zero by
    the camera matrix). *)
Theorem slider_bounds_tick_displacement
    (ui : ViewportControlPanel) (val : Z) (d : om.MVector) (h : Host)
    (panel : string) :
  truthy (focusPanel h) = Some panel →
  panelType h panel = "modelPanel" →
  let self := cameraFilter (onStepSliderChanged ui val) in
  let cam := panelCamera h panel in
  let P := om.of_triple (translation h cam) in
  let C := om.of_triple (centerOfInterest h cam) in
  let P' := om.of_triple
              (translation (exec (moveCameraLocal self d (moveStep self)) h) cam) in
  om.mul_matrix d (attribute h (String.append cam ".worldMatrix")) ≠ om.zero →
  (0.001 * om.length (om.sub C P) <= om.length (om.sub P' P)
   <= 0.02 * om.length (om.sub C P))%R.
Proof.
  intros Hp Hty self cam P C P' Hd. subst P'.
  destruct (moveCameraLocal_focused self d (moveStep self) h panel Hp Hty)
    as [Hpos _].
  cbv zeta in Hpos. fold cam in Hpos. fold P C in Hpos.
  rewrite Hpos, of_triple_triple.
  assert (0.01 <= moveStep self <= 0.20)%R as Hs
    by apply (clamp_bounds (IZR val / 100.0) _ _ STEP_MIN_le_STEP_MAX).
  rewrite tick_position_displacement; [|done|lra].
  pose proof (length_nonneg (om.sub C P)) as HL.
  unfold MOVE_SCALE_FACTOR. nra.
Qed.

(** The slider pushed to its maximum. *)
Lemma slider_bounds_tick_displacement_witness :
  truthy (focusPanel persp_host) = Some "modelPanel4"
  ∧ panelType persp_host "modelPanel4" = "modelPanel"
  ∧ om.mul_matrix (om.mk 0 0 (-1)) om.identity ≠ om.zero
  ∧ (om.length
       (om.sub
          (om.of_triple
             (translation
                (exec (moveCameraLocal
                         (cameraFilter (onStepSliderChanged ViewportControlPanel_init 20))
                         (om.mk 0 0 (-1))
                         (moveStep (cameraFilter
                            (onStepSliderChanged ViewportControlPanel_init 20))))
                      persp_host) "persp"))
          (om.mk 0 0 10))
     <= 0.02 * om.length (om.sub (om.mk 0 0 0) (om.mk 0 0 10)))%R.
Proof.
  split; [reflexivity|]. split; [reflexivity|].
  split; [exact forward_not_zero|].
  exact (proj2 (slider_bounds_tick_displacement ViewportControlPanel_init 20
                  (om.mk 0 0 (-1)) persp_host "modelPanel4"
                  eq_refl eq_refl forward_not_zero)).
Defined.

(** X12.  A camera that sits exactly on its centre of interest cannot be
    moved by the keys: the distance that scales the step is zero, so the
    tick writes the position it read, and still issues the write and the
    refresh. *)
Theorem camera_on_center_of_interest_stays
    (self : CameraControlFilter) (d : om.MVector) (step : R) (h : Host)
    (panel : string) :
  truthy (focusPanel h) = Some panel →
  panelType h panel = "modelPanel" →
  let cam := panelCamera h panel in
  centerOfInterest h cam = translation h cam →
  translation (exec (moveCameraLocal self d step) h) cam = translation h cam
  ∧ xform_set_translation cam (translation h cam)
    ∈ calls_of (moveCameraLocal self d step) h
  ∧ refresh ∈ calls_of (moveCameraLocal self d step) h.
Proof.
  intros Hp Hty cam Hc.
  destruct (moveCameraLocal_focused self d step h panel Hp Hty)
    as [Hpos Hcalls].
  cbv zeta in Hpos, Hcalls. fold cam in Hpos, Hcalls.
  assert (triple (tick_position (om.of_triple (translation h cam))
                    (om.of_triple (centerOfInterest h cam))
                    (attribute h (String.append cam ".worldMatrix")) d step)
          = translation h cam) as Hstay.
  { rewrite Hc. rewrite <- (triple_of_triple (translation h cam)) at 3.
    f_equal. unfold tick_position.
    replace (om.sub _ _) with om.zero by vec_eq.
    rewrite length_zero. vec_eq. }
  rewrite Hpos, Hcalls, Hstay. split; [done|].
  rewrite !elem_of_cons. tauto.
Qed.

(** The collapsed camera, W held. *)
Lemma camera_on_center_of_interest_stays_witness :
  truthy (focusPanel collapsed_host) = Some "modelPanel4"
  ∧ panelType collapsed_host "modelPanel4" = "modelPanel"
  ∧ centerOfInterest collapsed_host "persp" = translation collapsed_host "persp"
  ∧ translation (exec (moveCameraLocal holding_W (om.mk 0 0 (-1)) 0.1)
                      collapsed_host) "persp"
    = translation collapsed_host "persp".
Proof.
  split; [reflexivity|]. split; [reflexivity|]. split; [reflexivity|].
  exact (proj1 (camera_on_center_of_interest_stays holding_W (om.mk 0 0 (-1))
                  0.1 collapsed_host "modelPanel4" eq_refl eq_refl eq_refl)).
Defined.

Lemma moveCameraLocal_translation self d step h c :
  translation (exec (moveCameraLocal self d step) h) c = translation h c
  ∨ ∃ panel, truthy (focusPanel h) = Some panel
             ∧ panelType h panel = "modelPanel"
             ∧ c = panelCamera h panel.
Proof.
  unfold moveCameraLocal, exec, bind, cmds.getPanel_withFocus. simpl.
  destruct (truthy (focusPanel h)) as [panel|] eqn:Hp; [|by left].
  unfold cmds.getPanel_typeOf. simpl.
  destruct (String.eqb_spec (panelType h panel) "modelPanel") as [Hty|Hty];
    simpl; [|by left].
  destruct (String.eqb_spec c (panelCamera h panel)) as [->|Hc]; [|by left].
  right. by exists panel.
Qed.

(** X13.  A tick writes the camera shown by the focused panel and no
    other: the position of every other camera is what it was, for
    [moveCameraLocal] in any direction and for the timer's callback. *)
Theorem tick_leaves_other_cameras
    (self : CameraControlFilter) (h : Host) (c : string) :
  (∀ panel, focusPanel h = Some panel → c ≠ panelCamera h panel) →
  (∀ d step, translation (exec (moveCameraLocal self d step) h) c
             = translation h c)
  ∧ translation (exec (moveCameraLoop self) h) c = translation h c.
Proof.
  intros Hc.
  assert (∀ d step, translation (exec (moveCameraLocal self d step) h) c
                    = translation h c) as Hlocal.
  { intros d step.
    destruct (moveCameraLocal_translation self d step h c)
      as [Heq|(panel & Hp & _ & ->)]; [done|].
    destruct (focusPanel h) as [p|] eqn:Hf; [|done]. simpl in Hp.
    destruct (String.eqb p ""); [done|]. injection Hp as ->.
    by destruct (Hc panel). }
  split; [done|].
  unfold exec, moveCameraLoop.
  destruct (negb _ || _); [done|].
  destruct (Rlt_dec _ _); [|done]. apply Hlocal.
Qed.

(** The top camera while the perspective view has the focus. *)
Lemma tick_leaves_other_cameras_witness :
  (∀ panel, focusPanel persp_host = Some panel
            → "top" ≠ panelCamera persp_host panel)
  ∧ translation (exec (moveCameraLoop holding_W) persp_host) "top"
    = translation persp_host "top".
Proof.
  assert (∀ panel, focusPanel persp_host = Some panel
                   → "top" ≠ panelCamera persp_host panel) as Hc.
  { intros panel _. simpl. discriminate. }
  split; [exact Hc|].
  exact (proj2 (tick_leaves_other_cameras holding_W persp_host "top" Hc)).
Defined.

(** ** More about the panel *)

(** X14.  With [min_value <= max_value], [clamp] leaves a value inside the
    bounds as it is, clamping twice is clamping once, and [clamp] never
    reverses the order of two values. *)
Theorem clamp_on_ordered_bounds (lo hi : R) :
  (lo <= hi)%R →
  (∀ v, (lo <= v <= hi)%R → clamp v lo hi = v)
  ∧ (∀ v, clamp (clamp v lo hi) lo hi = clamp v lo hi)
  ∧ (∀ v v', (v <= v')%R → (clamp v lo hi <= clamp v' lo hi)%R).
Proof.
  intros Hle. unfold clamp, Rmax, Rmin. repeat split; intros.
  - repeat destruct (Rle_dec _ _); lra.
  - repeat destruct (Rle_dec _ _); lra.
  - repeat destruct (Rle_dec _ _); lra.
Qed.


(** The bounds of the step. *)
Lemma clamp_on_ordered_bounds_witness :
  (STEP_MIN <= STEP_MAX)%R
  ∧ (∀ v, (STEP_MIN <= v <= STEP_MAX)%R → clamp v STEP_MIN STEP_MAX = v).
Proof.
  split; [exact STEP_MIN_le_STEP_MAX|].
  exact (proj1 (clamp_on_ordered_bounds _ _ STEP_MIN_le_STEP_MAX)).
Defined.

(** X15.  With the bounds the wrong way round ([max_value < min_value])
    [clamp] returns [min_value] whatever the value, on floats and on ints:
    the outer [max] wins. *)
Theorem clamp_on_swapped_bounds (lo hi v : R) (lo' hi' v' : Z) :
  ((hi < lo)%R → clamp v lo hi = lo)
  ∧ ((hi' < lo')%Z → clamp_int v' lo' hi' = lo').
Proof.
  split.
  - intros Hlt. unfold clamp, Rmax, Rmin.
    repeat destruct (Rle_dec _ _); lra.
  - intros Hlt. unfold clamp_int. lia.
Qed.


(** Bounds 2 and 1. *)
Lemma clamp_on_swapped_bounds_witness :
  (1 < 2)%R ∧ clamp 5 2 1 = 2%R
  ∧ (1 < 2)%Z ∧ clamp_int 5 2 1 = 2%Z.
Proof.
  assert (1 < 2)%R as Hr by lra.
  assert (1 < 2)%Z as Hz by lia.
  split; [exact Hr|].
  split; [exact (proj1 (clamp_on_swapped_bounds 2 1 5 2 1 5) Hr)|].
  split; [exact Hz|].
  exact (proj2 (clamp_on_swapped_bounds 2 1 5 2 1 5) Hz).
Defined.

Lemma Int_part_IZR n : Int_part (IZR n) = n.
Proof. symmetry. apply Int_part_spec. lra. Qed.

Lemma py_round_IZR n : py_round (IZR n) = n.
Proof.
  unfold py_round, frac_part. rewrite Int_part_IZR.
  destruct (Rlt_dec _ _) as [|Hn]; [done|]. destruct Hn. lra.
Qed.

Lemma py_int_IZR n : (0 <= n)%Z → py_int (IZR n) = n.
Proof.
  intros Hn. unfold py_int. apply IZR_le in Hn.
  destruct (Rle_dec _ _); [apply Int_part_IZR | done].
Qed.

Lemma stepSlider_range : stepSlider_minimum = 1%Z ∧ stepSlider_maximum = 20%Z.
Proof.
  unfold stepSlider_minimum, stepSlider_maximum, STEP_MIN, STEP_MAX.
  replace (0.01 * 100)%R with (IZR 1) by lra.
  replace (0.20 * 100)%R with (IZR 20) by lra.
  by rewrite !py_int_IZR.
Qed.

Lemma slider_step_times_100 val :
  (clamp (IZR val / 100.0) STEP_MIN STEP_MAX * 100)%R
  = IZR (clamp_int val 1 20).
Proof.
  unfold clamp_int, STEP_MIN, STEP_MAX.
  destruct (Z_lt_le_dec val 1) as [Hlo|Hlo].
  - rewrite Z.max_l by lia. apply IZR_lt in Hlo.
    unfold clamp, Rmax, Rmin. repeat destruct (Rle_dec _ _); lra.
  - destruct (Z_lt_le_dec 20 val) as [Hhi|Hhi].
    + rewrite Z.min_l, Z.max_r by lia. apply IZR_lt in Hhi.
      unfold clamp, Rmax, Rmin. repeat destruct (Rle_dec _ _); lra.
    + rewrite Z.min_r, Z.max_r by lia. apply IZR_le in Hlo, Hhi.
      unfold clamp, Rmax, Rmin. repeat destruct (Rle_dec _ _); lra.
Qed.

Lemma slider_step_of_clamped val :
  clamp (IZR (clamp_int val 1 20) / 100.0) STEP_MIN STEP_MAX
  = clamp (IZR val / 100.0) STEP_MIN STEP_MAX.
Proof.
  pose proof (slider_step_times_100 val) as H1.
  pose proof (slider_step_times_100 (clamp_int val 1 20)) as H2.
  assert (clamp_int (clamp_int val 1 20) 1 20 = clamp_int val 1 20) as Hc
    by (unfold clamp_int; lia).
  rewrite Hc in H2. lra.
Qed.

Lemma onEnabledToggled_same self h :
  onEnabledToggled self (isInstalled self) h
  = ({| cameraFilter := cameraFilter self; isInstalled := isInstalled self;
        enabledButton_text := if isInstalled self then "DISABLE" else "ENABLE";
        stepValueLabel := stepValueLabel self |}, h).
Proof.
  unfold onEnabledToggled, bind, ret.
  destruct self as [f i t l]; simpl. by destruct i.
Qed.

Lemma refreshFromFilter_unfold w h :
  refreshFromFilter w h =
  let w0 := checked_in_line w in
  let step := moveStep (cameraFilter (panel w0)) in
  let w1 := setValue (clamp_int (py_round (step * 100))
                        (py_int (STEP_MIN * 100)) (py_int (STEP_MAX * 100))) w0 in
  ({| panel := {| cameraFilter := cameraFilter (panel w1);
                  isInstalled := isInstalled (panel w1);
                  enabledButton_text := enabledButton_text (panel w1);
                  stepValueLabel := step |};
      enabledButton_checked := enabledButton_checked w1;
      stepSlider_value := stepSlider_value w1 |}, h).
Proof.
  unfold refreshFromFilter, setChecked, checked_in_line, bind, ret.
  destruct (Bool.eqb _ _); [done|]. by rewrite onEnabledToggled_same.
Qed.

Lemma checked_in_line_spec w :
  cameraFilter (panel (checked_in_line w)) = cameraFilter (panel w)
  ∧ isInstalled (panel (checked_in_line w)) = isInstalled (panel w)
  ∧ enabledButton_checked (checked_in_line w) = isInstalled (panel w)
  ∧ stepSlider_value (checked_in_line w) = stepSlider_value w.
Proof.
  unfold checked_in_line.
  destruct (Bool.eqb _ _) eqn:Hb; [|done].
  apply Bool.eqb_prop in Hb. by rewrite Hb.
Qed.

Lemma setValue_slider_step w0 val :
  moveStep (cameraFilter (panel w0))
    = clamp (IZR val / 100.0) STEP_MIN STEP_MAX →
  let w1 := setValue (clamp_int
               (py_round (moveStep (cameraFilter (panel w0)) * 100))
               (py_int (STEP_MIN * 100)) (py_int (STEP_MAX * 100))) w0 in
  stepSlider_value w1 = clamp_int val 1 20
  ∧ cameraFilter (panel w1) = cameraFilter (panel w0)
  ∧ isInstalled (panel w1) = isInstalled (panel w0)
  ∧ enabledButton_checked w1 = enabledButton_checked w0.
Proof.
  intros Hstep. rewrite Hstep, slider_step_times_100, py_round_IZR.
  fold stepSlider_minimum stepSlider_maximum.
  destruct stepSlider_range as [Hmin Hmax].
  unfold setValue. rewrite Hmin, Hmax.
  assert (clamp_int (clamp_int val 1 20) 1 20 = clamp_int val 1 20) as Hc
    by (unfold clamp_int; lia).
  rewrite Hc. fold (clamp_int (clamp_int val 1 20) 1 20). rewrite Hc.
  destruct (Z.eqb_spec (stepSlider_value w0) (clamp_int val 1 20)) as [He|He];
    simpl; [done|].
  split; [done|]. split; [|done].
  rewrite slider_step_of_clamped, <- Hstep. by destruct (cameraFilter (panel w0)).
Qed.

(** X16.  [refreshFromFilter] run after the slider's handler stored a
    step for [val]: the slider ends at [val] clamped to 1..20, the filter is
    untouched (the handler the slider may trigger stores the same step
    again), the label shows the filter's step, the button's checked state
    equals [isInstalled], and Maya is not called. *)
Theorem refreshFromFilter_after_slider_change
    (w : PanelWidgets) (val : Z) (h : Host) :
  let changed := {| panel := onStepSliderChanged (panel w) val;
                    enabledButton_checked := enabledButton_checked w;
                    stepSlider_value := stepSlider_value w |} in
  let w' := result (refreshFromFilter changed) h in
  stepSlider_value w' = clamp_int val 1 20
  ∧ cameraFilter (panel w') = cameraFilter (panel changed)
  ∧ stepValueLabel (panel w') = moveStep (cameraFilter (panel w'))
  ∧ enabledButton_checked w' = isInstalled (panel w')
  ∧ isInstalled (panel w') = isInstalled (panel w)
  ∧ exec (refreshFromFilter changed) h = h.
Proof.
  intros changed w'. subst w'.
  unfold result, exec. rewrite refreshFromFilter_unfold. cbv zeta.
  destruct (checked_in_line_spec changed) as (Hf0 & Hi0 & Hc0 & _).
  assert (moveStep (cameraFilter (panel (checked_in_line changed)))
          = clamp (IZR val / 100.0) STEP_MIN STEP_MAX) as Hstep
    by by rewrite Hf0.
  destruct (setValue_slider_step _ val Hstep) as (Hv & Hf & Hi & Hc).
  cbv zeta in Hv, Hf, Hi, Hc.
  cbn [fst snd panel enabledButton_checked stepSlider_value cameraFilter
       isInstalled stepValueLabel].
  rewrite Hv, Hf, Hi, Hc, Hf0, Hi0, Hc0. done.
Qed.

(** ** Installing and removing the filter *)

Lemma eventFilter_same_windows self event h :
  same_windows h (exec (eventFilter self event) h).
Proof.
  unfold exec, eventFilter, on_KeyPress, bind, ret.
  destruct event as [ty key rep]. destruct ty; simpl; [|done..].
  destruct (key =? Qt.Key_Alt)%Z; [done|].
  destruct (_altPressed self && (key =? Qt.Key_F)%Z); [done|].
  by destruct (_ && _ && _).
Qed.

Lemma moveCameraLoop_same_windows self h :
  same_windows h (exec (moveCameraLoop self) h).
Proof.
  unfold exec, moveCameraLoop.
  destruct (negb _ || _); [done|].
  destruct (Rlt_dec _ _); [|done].
  unfold moveCameraLocal, bind, cmds.getPanel_withFocus. simpl.
  destruct (truthy (focusPanel h)); [|done].
  unfold cmds.getPanel_typeOf. simpl.
  by destruct (negb _).
Qed.

Lemma install_inv_onEnabledToggled self checked h :
  install_inv self h →
  install_inv (result (onEnabledToggled self checked) h)
              (exec (onEnabledToggled self checked) h).
Proof.
  intros [Hf Hh]. unfold install_inv, result, exec.
  unfold onEnabledToggled, installCameraControls, uninstallCameraControls,
    bind, ret.
  destruct self as [f i t l], checked, i; simpl in *; try done.
  - split; [done|]. rewrite elem_of_union, elem_of_singleton. tauto.
  - case_bool_decide as Hd; simpl; (split; [done|]).
    + rewrite elem_of_difference, elem_of_singleton. split; [tauto|done].
    + split; [|done]. intros Hin. by destruct Hd.
Qed.

Lemma install_inv_dispatch self a h :
  install_inv self h →
  install_inv (result (dispatch self a) h) (exec (dispatch self a) h).
Proof.
  intros [Hf Hh]. destruct a as [event| |checked|val].
  - unfold result, exec. rewrite dispatch_KeyEvent.
    destruct (filterInstalled h) eqn:Hi; [|split; simpl; [congruence|done]].
    destruct (eventFilter_same_windows (cameraFilter self) event h) as [Hf' Hh'].
    split; simpl; [congruence|]. by rewrite Hh'.
  - unfold result, exec. simpl.
    destruct (QTimer.isActive _); [|done].
    destruct (moveCameraLoop_same_windows (cameraFilter self) h) as [Hf' Hh'].
    unfold exec, bind, ret in *.
    destruct (moveCameraLoop _ h) as [[] h']. simpl in *.
    split; [by rewrite Hf'|by rewrite Hh'].
  - by apply install_inv_onEnabledToggled.
  - done.
Qed.

Lemma install_inv_run actions : ∀ self h,
  install_inv self h →
  install_inv (result (run self actions) h) (exec (run self actions) h).
Proof.
  induction actions as [|a actions IH]; intros self h Hinv; [done|].
  unfold result, exec. rewrite run_cons. apply IH.
  by apply install_inv_dispatch.
Qed.

(** X17.  When the module starts in a session without the filter and
    without the heads-up display, then after any sequence of signals the
    panel's [isInstalled] is exactly whether the filter is on the main
    window, and exactly whether the heads-up display exists. *)
Theorem panel_flag_mirrors_host (actions : list Action) (h : Host) :
  filterInstalled h = false →
  HUD_NAME ∉ huds h →
  let self := result (run ViewportControlPanel_init actions) h in
  let h' := exec (run ViewportControlPanel_init actions) h in
  filterInstalled h' = isInstalled self
  ∧ (HUD_NAME ∈ huds h' ↔ isInstalled self = true).
Proof.
  intros Hf Hh. apply install_inv_run. split; [done|].
  split; [done|]. discriminate.
Qed.


(** Enabled, Alt pressed, enabled again. *)
Lemma panel_flag_mirrors_host_witness :
  filterInstalled fresh_host = false
  ∧ (HUD_NAME ∉ huds fresh_host)
  ∧ filterInstalled
      (exec (run ViewportControlPanel_init
               [Toggled true; KeyEvent (press Qt.Key_Alt); Toggled true])
            fresh_host)
    = isInstalled
        (result (run ViewportControlPanel_init
                   [Toggled true; KeyEvent (press Qt.Key_Alt); Toggled true])
                fresh_host).
Proof.
  assert (HUD_NAME ∉ huds fresh_host) as Hh by apply not_elem_of_empty.
  split; [reflexivity|]. split; [exact Hh|].
  exact (proj1 (panel_flag_mirrors_host
                  [Toggled true; KeyEvent (press Qt.Key_Alt); Toggled true]
                  fresh_host eq_refl Hh)).
Defined.

(** X18.  Disabling an installed panel removes the filter, asks whether
    the heads-up display exists and removes it only if it does; afterwards
    the flag is cleared, the button reads ENABLE, the filter is off the main
    window and the display is gone. *)
Theorem disable_removes_hud_only_if_present
    (self : ViewportControlPanel) (h : Host) :
  isInstalled self = true →
  let self' := result (onEnabledToggled self false) h in
  let h' := exec (onEnabledToggled self false) h in
  calls_of (onEnabledToggled self false) h
  = removeEventFilter :: headsUpDisplay_exists HUD_NAME
    :: (if bool_decide (HUD_NAME ∈ huds h)
        then [headsUpDisplay_remove HUD_NAME] else [])
  ∧ isInstalled self' = false
  ∧ enabledButton_text self' = "ENABLE"
  ∧ filterInstalled h' = false
  ∧ HUD_NAME ∉ huds h'.
Proof.
  intros Hi. unfold calls_of, result, exec.
  unfold onEnabledToggled, uninstallCameraControls, bind, ret.
  rewrite Hi. simpl.
  case_bool_decide as Hin; simpl.
  - rewrite <- !app_assoc, drop_app_length.
    repeat split; try done.
    rewrite elem_of_difference, elem_of_singleton. tauto.
  - rewrite <- !app_assoc, drop_app_length. done.
Qed.


(** The display was deleted by hand before disabling. *)
Lemma disable_removes_hud_only_if_present_witness :
  isInstalled moving_panel = true
  ∧ calls_of (onEnabledToggled moving_panel false) fresh_host
    = [removeEventFilter; headsUpDisplay_exists HUD_NAME].
Proof.
  split; [reflexivity|].
  exact (proj1 (disable_removes_hud_only_if_present moving_panel fresh_host
                  eq_refl)).
Defined.

(** X19.  Enabling and then disabling a panel that was not installed, in a
    session without the filter and the display, puts everything back: flag
    cleared, button ENABLE, filter object untouched, filter list and
    heads-up displays as before, after exactly five calls. *)
Theorem enable_then_disable_restores_host
    (self : ViewportControlPanel) (h : Host) :
  isInstalled self = false →
  filterInstalled h = false →
  HUD_NAME ∉ huds h →
  let self' := result (run self [Toggled true; Toggled false]) h in
  let h' := exec (run self [Toggled true; Toggled false]) h in
  isInstalled self' = false
  ∧ enabledButton_text self' = "ENABLE"
  ∧ cameraFilter self' = cameraFilter self
  ∧ filterInstalled h' = false
  ∧ huds h' = huds h
  ∧ calls_of (run self [Toggled true; Toggled false]) h
    = [ installEventFilter; headsUpDisplay_create HUD_NAME;
        removeEventFilter; headsUpDisplay_exists HUD_NAME;
        headsUpDisplay_remove HUD_NAME ].
Proof.
  intros Hi Hf Hh. unfold calls_of, result, exec.
  unfold run, dispatch, onEnabledToggled, installCameraControls,
    uninstallCameraControls, bind, ret.
  rewrite Hi. simpl.
  rewrite bool_decide_eq_true_2
    by (rewrite elem_of_union, elem_of_singleton; tauto).
  simpl. rewrite <- !app_assoc, drop_app_length.
  repeat split; try done.
  apply set_eq. intros k.
  rewrite elem_of_difference, elem_of_union, elem_of_singleton.
  split; [tauto|]. intros Hk. split; [tauto|]. by intros ->.
Qed.


(** The freshly loaded module. *)
Lemma enable_then_disable_restores_host_witness :
  isInstalled ViewportControlPanel_init = false
  ∧ filterInstalled fresh_host = false
  ∧ (HUD_NAME ∉ huds fresh_host)
  ∧ huds (exec (run ViewportControlPanel_init [Toggled true; Toggled false])
               fresh_host) = huds fresh_host.
Proof.
  assert (HUD_NAME ∉ huds fresh_host) as Hh by apply not_elem_of_empty.
  split; [reflexivity|]. split; [reflexivity|]. split; [exact Hh|].
  pose proof (enable_then_disable_restores_host ViewportControlPanel_init
                fresh_host eq_refl eq_refl Hh) as (_ & _ & _ & _ & Hhuds & _).
  exact Hhuds.
Defined.

Lemma run_KeyEvents_not_installed evs : ∀ self h,
  filterInstalled h = false →
  run self (KeyEvent <$> evs) h = (self, h).
Proof.
  induction evs as [|event evs IH]; intros self h Hf; [done|].
  rewrite fmap_cons, run_cons. unfold result, exec.
  rewrite dispatch_KeyEvent, Hf. by apply IH.
Qed.

(** X20.  Disabling does not stop a movement under way: the handler
    leaves the filter object as it is (keys held, Alt flag, running timer),
    and since the filter is off the main window no later key event, a
    release included, reaches it. *)
Theorem disabling_leaves_filter_running
    (self : ViewportControlPanel) (h : Host) (evs : list QEvent.t) :
  isInstalled self = true →
  let self1 := result (onEnabledToggled self false) h in
  let h1 := exec (onEnabledToggled self false) h in
  cameraFilter self1 = cameraFilter self
  ∧ run self1 (KeyEvent <$> evs) h1 = (self1, h1).
Proof.
  intros Hi self1 h1. split.
  - unfold self1, result, onEnabledToggled, uninstallCameraControls, bind, ret.
    rewrite Hi. simpl. by destruct (bool_decide _).
  - apply run_KeyEvents_not_installed.
    unfold h1, exec, onEnabledToggled, uninstallCameraControls, bind, ret.
    rewrite Hi. simpl. by destruct (bool_decide _).
Qed.

(** W held under Alt when the panel is disabled; both keys are released
    afterwards. *)
Lemma disabling_leaves_filter_running_witness :
  isInstalled moving_panel = true
  ∧ cameraFilter (result (onEnabledToggled moving_panel false) persp_host)
    = holding_W
  ∧ run (result (onEnabledToggled moving_panel false) persp_host)
        (KeyEvent <$> [release Qt.Key_W; release Qt.Key_Alt])
        (exec (onEnabledToggled moving_panel false) persp_host)
    = (result (onEnabledToggled moving_panel false) persp_host,
       exec (onEnabledToggled moving_panel false) persp_host).
Proof.
  split; [reflexivity|].
  exact (disabling_leaves_filter_running moving_panel persp_host
           [release Qt.Key_W; release Qt.Key_Alt] eq_refl).
Defined.
